(** * HotShotXL motion module: checkpoint validation, module tree, forward shapes

    A shallow embedding of [animatediff/motion_module_hsxl.py]
    (ComfyUI-AnimateDiff-Evolved).  Python values are modelled as follows.

    - Exceptions are a result type; code that raises returns [Raise e].
    - Strings are [string]s: Python text whose code points are below 256,
      one character per code point (checkpoint keys are ASCII).
    - A weight dictionary is an association list in insertion order, which
      is the order in which Python iterates [dict.keys()].
    - A tensor is represented by its shape: element values are floating
      point numbers that none of the properties below depend on.
    - Python floats handled by the module itself (the scale multiplier,
      the clamp bounds) are binary64 [float]s.
    - Mutation of [self] is explicit state passing on records. *)

From Stdlib Require Import List String Ascii ZArith Lia Bool PeanoNat.
From Stdlib Require Import Floats DecimalString.
Import ListNotations.
Local Open Scope string_scope.
Local Open Scope list_scope.

Set Implicit Arguments.

(* ================================================================== *)
(** * Exceptions and results *)

Inductive exn : Type :=
| MotionCompatibilityError (msg : string)
| TypeError (msg : string)
| ValueError
| IndexError
| KeyError
| ZeroDivisionError
| EinopsError
| RuntimeError.

Inductive result (A : Type) : Type :=
| Ok (a : A)
| Raise (e : exn).

Arguments Ok {A} a.
Arguments Raise {A} e.

Definition rbind {A B} (m : result A) (k : A -> result B) : result B :=
  match m with
  | Ok a => k a
  | Raise e => Raise e
  end.

Notation "x <- m ;; k" := (rbind m (fun x => k))
  (at level 61, m at next level, right associativity).

Fixpoint rfold {A B} (f : A -> B -> result A) (l : list B) (a : A) : result A :=
  match l with
  | [] => Ok a
  | b :: l' => a' <- f a b ;; rfold f l' a'
  end.

(* ================================================================== *)
(** * Python string operations used by the validators *)

Module PyStr.

(** [s.startswith(pre)] *)
Fixpoint startswith (s pre : string) : bool :=
  match pre, s with
  | EmptyString, _ => true
  | String a pre', String b s' => Ascii.eqb a b && startswith s' pre'
  | String _ _, EmptyString => false
  end.

(** [s.endswith(suf)]: some suffix of [s] is [suf]. *)
Fixpoint endswith (s suf : string) : bool :=
  String.eqb s suf ||
  match s with
  | EmptyString => false
  | String _ s' => endswith s' suf
  end.

(** [sub in s] *)
Fixpoint contains (sub s : string) : bool :=
  startswith s sub ||
  match s with
  | EmptyString => false
  | String _ s' => contains sub s'
  end.

(** [s.split(sep)] for a one-character separator; never the empty list. *)
Fixpoint split (sep : ascii) (s : string) : list string :=
  match s with
  | EmptyString => [EmptyString]
  | String c s' =>
      if Ascii.eqb c sep then EmptyString :: split sep s'
      else match split sep s' with
           | seg :: rest => String c seg :: rest
           | [] => [String c EmptyString]
           end
  end.

(** Blanks that [int] strips on both sides of its argument.  Below 127
    these are the six characters of C's [isspace]: tab, LF, VT, FF, CR and
    the space; the separators 0x1c-0x1f, which [str.isspace] accepts, are
    not among them.  From 127 on [int] takes the Unicode blanks, which in
    this range are NEL (0x85) and the no-break space (0xa0). *)
Definition is_space (c : ascii) : bool :=
  let n := nat_of_ascii c in
  ((9 <=? n)%nat && (n <=? 13)%nat) || (n =? 32)%nat
  || (n =? 133)%nat || (n =? 160)%nat.

Definition is_digit (c : ascii) : bool :=
  let n := nat_of_ascii c in (48 <=? n)%nat && (n <=? 57)%nat.

Definition digit_val (c : ascii) : Z := Z.of_nat (nat_of_ascii c - 48).

Fixpoint lstrip (s : list ascii) : list ascii :=
  match s with
  | c :: s' => if is_space c then lstrip s' else s
  | [] => []
  end.

Definition strip (s : list ascii) : list ascii :=
  rev (lstrip (rev (lstrip s))).

(** Digits with single underscores between them, most significant first;
    [after_us] says that the previous character was an underscore. *)
Fixpoint digits (acc : Z) (after_us : bool) (s : list ascii) : option Z :=
  match s with
  | [] => if after_us then None else Some acc
  | c :: s' =>
      if is_digit c then digits (10 * acc + digit_val c) false s'
      else if Ascii.eqb c "_" then
             if after_us then None else digits acc true s'
           else None
  end.

(** [sys.get_int_max_str_digits()], at its default: [int] refuses a
    decimal text of more digits with a [ValueError]. *)
Definition int_max_str_digits : N := 4300%N.

(** The number of digits of a text, underscores not counted. *)
Definition digit_count (s : list ascii) : N :=
  fold_left (fun n c => if is_digit c then N.succ n else n) s 0%N.

(** [int(s)] in base 10, on text of code points below 256: optional
    blanks, an optional sign, at most [int_max_str_digits] digits with
    single underscores between them, optional blanks; [None] stands for
    [ValueError]. *)
Definition int (s : string) : option Z :=
  let body := strip (list_ascii_of_string s) in
  let '(neg, ds) :=
    match body with
    | "-"%char :: t => (true, t)
    | "+"%char :: t => (false, t)
    | _ => (false, body)
    end in
  match ds with
  | c :: _ =>
      if is_digit c && (digit_count ds <=? int_max_str_digits)%N
      then option_map (fun n => if neg then Z.opp n else n) (digits 0 false ds)
      else None
  | [] => None
  end.

(** [str(n)] for an integer. *)
Definition str (n : Z) : string := NilZero.string_of_int (Z.to_int n).

End PyStr.

(* ================================================================== *)
(** * Tensors and weight dictionaries *)

(** A tensor, by its shape. *)
Record Tensor : Type := mkTensor { shape : list nat }.

(** [t.size(i)] *)
Definition size (t : Tensor) (i : nat) : result nat :=
  match nth_error (shape t) i with
  | Some n => Ok n
  | None => Raise IndexError
  end.

(** [dict[str, Tensor]], in insertion order. *)
Definition StateDict : Type := list (string * Tensor).

Definition keys (d : StateDict) : list string := map fst d.

(** [d[key]] *)
Fixpoint getitem (d : StateDict) (key : string) : result Tensor :=
  match d with
  | [] => Raise KeyError
  | (k, t) :: d' => if String.eqb k key then Ok t else getitem d' key
  end.

(* ================================================================== *)
(** * The three checkpoint inspections *)

Definition pos_encoder_suffix : string := "pos_encoder.positional_encoding".
Definition down_blocks_marker : string := "down_blocks".
Definition mid_block_prefix : string := "mid_block.".
Definition temporal_marker : string := "temporal".

Definition not_a_module (mm_type : string) : string :=
  mm_type ++ " is not a valid HotShotXL motion module!".

Definition no_pos_encoder_msg (mm_type : string) : string :=
  "No pos_encoder.positional_encoding found in mm_state_dict - "
  ++ not_a_module mm_type.

Definition block_count_msg (biggest_block : Z) (mm_type : string) : string :=
  "Expected biggest down_block to be 2, but was "
  ++ PyStr.str biggest_block ++ " - " ++ not_a_module mm_type.

(** The [for key in mm_state_dict.keys()] loop of
    [get_hsxl_temporal_position_encoding_max_len]. *)
Fixpoint max_len_loop (d : StateDict) (ks : list string) (mm_type : string)
  : result nat :=
  match ks with
  | [] => Raise (MotionCompatibilityError (no_pos_encoder_msg mm_type))
  | key :: ks' =>
      if PyStr.endswith key pos_encoder_suffix
      then t <- getitem d key ;; size t 1
      else max_len_loop d ks' mm_type
  end.

Definition get_hsxl_temporal_position_encoding_max_len
  (mm_state_dict : StateDict) (mm_type : string) : result nat :=
  max_len_loop mm_state_dict (keys mm_state_dict) mm_type.

(** One iteration of the loop of [validate_hsxl_block_count]: the body of
    the [try] raises [IndexError] when the key has no second segment, and
    only [ValueError] is handled. *)
Definition block_count_step (biggest_block : Z) (key : string) : result Z :=
  if PyStr.contains down_blocks_marker key then
    match nth_error (PyStr.split "." key) 1 with
    | None => Raise IndexError
    | Some block_int =>
        match PyStr.int block_int with
        | None => Ok biggest_block
        | Some block_num =>
            Ok (if (block_num >? biggest_block)%Z then block_num
                else biggest_block)
        end
    end
  else Ok biggest_block.

Definition validate_hsxl_block_count
  (mm_state_dict : StateDict) (mm_type : string) : result unit :=
  biggest_block <- rfold block_count_step (keys mm_state_dict) 0%Z ;;
  if (biggest_block =? 2)%Z then Ok tt
  else Raise (MotionCompatibilityError (block_count_msg biggest_block mm_type)).

Definition has_mid_block (mm_state_dict : StateDict) : bool :=
  existsb (fun key => PyStr.startswith key mid_block_prefix
                      && PyStr.contains temporal_marker key)
          (keys mm_state_dict).

(* ================================================================== *)
(** * Layers supplied by torch, comfy and [motion_utils]

    Only the configuration that fixes the shape behaviour is kept. *)

(** [nn.Linear(in_features, out_features)] *)
Record Linear : Type := mkLinear { in_features : nat; out_features : nat }.

(** [nn.LayerNorm(dim)] *)
Record LayerNorm : Type := mkLayerNorm { normalized_shape : nat }.

(** [GroupNormAD(num_groups, num_channels, eps, affine)] *)
Record GroupNormAD : Type :=
  mkGroupNormAD { num_groups : nat; num_channels : nat; eps : float;
                  affine : bool }.

(** [FeedForward(dim, dropout, glu)] *)
Record FeedForward : Type :=
  mkFeedForward { ff_dim : nat; ff_dropout : float; glu : bool }.

(** The binary64 values of the literals [1e-6] and [1e-09]. *)
Definition eps_1e_6 : float := 0x1.0c6f7a0b5ed8dp-20%float.
Definition rel_tol_1e_9 : float := 0x1.12e0be826d695p-30%float.

(** Modelled from the spec: the group-normalization capability
    [GroupNormAD] of [motion_utils], taken to be torch's group norm, whose
    constructor tests [num_channels % num_groups != 0]: no groups is a
    division by zero, and a channel count that the groups do not divide
    is refused. *)
Definition GroupNormAD_init (num_groups num_channels : nat) (eps : float)
  (affine : bool) : result GroupNormAD :=
  if (num_groups =? 0)%nat then Raise ZeroDivisionError
  else if (num_channels mod num_groups =? 0)%nat
  then Ok (mkGroupNormAD num_groups num_channels eps affine)
  else Raise ValueError.

(* ================================================================== *)
(** * Shape behaviour of the tensor operations *)

Module Torch.

Definition numel (s : list nat) : nat := fold_right Nat.mul 1 s.

Fixpoint nodupb (l : list nat) : bool :=
  match l with
  | [] => true
  | x :: l' => negb (existsb (Nat.eqb x) l') && nodupb l'
  end.

(** [x.permute(d0, d1, ...)] *)
Definition permute (dims : list nat) (x : Tensor) : result Tensor :=
  let rank := List.length (shape x) in
  if (List.length dims =? rank)%nat && forallb (fun d => (d <? rank)%nat) dims
     && nodupb dims
  then Ok (mkTensor (map (fun d => nth d (shape x) 0) dims))
  else Raise RuntimeError.

(** [x.reshape(n0, n1, ...)], without inferred dimensions *)
Definition reshape (new_shape : list nat) (x : Tensor) : result Tensor :=
  if (numel new_shape =? numel (shape x))%nat then Ok (mkTensor new_shape)
  else Raise RuntimeError.

(** [a, b, c, d = x.shape] *)
Definition unpack4 (x : Tensor) : result (nat * nat * nat * nat) :=
  match shape x with
  | [a; b; c; d] => Ok (a, b, c, d)
  | _ => Raise ValueError
  end.

(** Broadcasting of two shapes, both given last dimension first. *)
Fixpoint broadcast_rev (a b : list nat) : result (list nat) :=
  match a, b with
  | [], _ => Ok b
  | _, [] => Ok a
  | x :: a', y :: b' =>
      rest <- broadcast_rev a' b' ;;
      if (x =? y)%nat then Ok (x :: rest)
      else if (x =? 1)%nat then Ok (y :: rest)
      else if (y =? 1)%nat then Ok (x :: rest)
      else Raise RuntimeError
  end.

(** [x + y] *)
Definition add (x y : Tensor) : result Tensor :=
  s <- broadcast_rev (rev (shape x)) (rev (shape y)) ;;
  Ok (mkTensor (rev s)).

(** [x * y] *)
Definition mul (x y : Tensor) : result Tensor :=
  s <- broadcast_rev (rev (shape x)) (rev (shape y)) ;;
  Ok (mkTensor (rev s)).

(** A shape without its leading dimensions of size 1. *)
Fixpoint strip_ones (s : list nat) : list nat :=
  match s with
  | 1 :: s' => strip_ones s'
  | _ => s
  end.

(** Whether a shape expands to another one, both given last dimension
    first: each dimension is the same or is 1. *)
Fixpoint expands_rev (src dst : list nat) : bool :=
  match src, dst with
  | [], _ => true
  | _ :: _, [] => false
  | x :: src', y :: dst' =>
      ((x =? y)%nat || (x =? 1)%nat) && expands_rev src' dst'
  end.

(** [slot[...] = value] for an indexed [slot]: the value, without its
    leading dimensions of size 1, is expanded to the shape of the slot. *)
Definition setitem (slot value : Tensor) : result unit :=
  if expands_rev (rev (strip_ones (shape value))) (rev (shape slot))
  then Ok tt else Raise RuntimeError.

(** [x[:, :length]] *)
Definition slice_second (length : nat) (x : Tensor) : result Tensor :=
  match shape x with
  | a :: b :: rest => Ok (mkTensor (a :: Nat.min length b :: rest))
  | _ => Raise IndexError
  end.

Definition last_is (n : nat) (x : Tensor) : bool :=
  match rev (shape x) with
  | c :: _ => (c =? n)%nat
  | [] => false
  end.

Definition Linear_forward (self : Linear) (x : Tensor) : result Tensor :=
  match rev (shape x) with
  | c :: front =>
      if (c =? in_features self)%nat
      then Ok (mkTensor (rev (out_features self :: front)))
      else Raise RuntimeError
  | [] => Raise RuntimeError
  end.

Definition LayerNorm_forward (self : LayerNorm) (x : Tensor) : result Tensor :=
  if last_is (normalized_shape self) x then Ok x else Raise RuntimeError.

(** [rearrange(x, "(b f) s c -> (b s) f c", f=f)] *)
Definition rearrange_frames_in (f : nat) (x : Tensor) : result Tensor :=
  match shape x with
  | [n; s; c] =>
      if (f =? 0)%nat then Raise ZeroDivisionError
      else if (n mod f =? 0)%nat then Ok (mkTensor [n / f * s; f; c])
      else Raise EinopsError
  | _ => Raise EinopsError
  end.

(** [rearrange(x, "(b s) f c -> (b f) s c", s=s)] *)
Definition rearrange_frames_out (s : nat) (x : Tensor) : result Tensor :=
  match shape x with
  | [m; f; c] =>
      if (s =? 0)%nat then Raise ZeroDivisionError
      else if (m mod s =? 0)%nat then Ok (mkTensor [m / s * f; s; c])
      else Raise EinopsError
  | _ => Raise EinopsError
  end.

(** [repeat(x, "b n c -> (b s) n c", s=s)] *)
Definition repeat_batch (s : nat) (x : Tensor) : result Tensor :=
  match shape x with
  | [b; n; c] => Ok (mkTensor [b * s; n; c])
  | _ => Raise EinopsError
  end.

End Torch.

(* ================================================================== *)
(** * The module tree *)

(** [BlockType] of [motion_utils]. *)
Inductive BlockType : Type := DOWN | MID | UP.

Definition BlockType_eqb (a b : BlockType) : bool :=
  match a, b with
  | DOWN, DOWN | MID, MID | UP, UP => true
  | _, _ => false
  end.

(** [InjectorVersion] of [motion_utils]; the wrapper uses one member. *)
Inductive InjectorVersion : Type := HOTSHOTXL_V1.

(** [MotionLoRAInfo] of [motion_lora]: a LoRA descriptor. *)
Inductive MotionLoRAInfo : Type := LoRAInfo (name : string) (strength : float).

Record PositionalEncoding : Type := mkPositionalEncoding {
  dropout : float;
  (** the registered buffer, of size [(1, max_length, dim)] *)
  positional_encoding : Tensor
}.

(** [nn.Dropout(p)] refuses a probability outside of [0, 1]. *)
Definition Dropout_init (p : float) : result float :=
  if PrimFloat.ltb p 0 || PrimFloat.ltb 1 p then Raise ValueError else Ok p.

(** [PositionalEncoding.__init__].  The division by [dim] is Python's and
    raises for 0; the sines fill the columns [0::2] and the cosines the
    columns [1::2] of the buffer, which for an odd [dim] are one fewer
    than the values computed for them. *)
Definition PositionalEncoding_init (dim : nat) (dropout : float)
  (max_length : nat) : result PositionalEncoding :=
  dropout <- Dropout_init dropout ;;
  let positional_encoding := mkTensor [1; max_length; dim] in
  let position := mkTensor [max_length; 1] in
  let arange_0_dim_2 := mkTensor [(dim + 1) / 2] in
  if (dim =? 0)%nat then Raise ZeroDivisionError else
  let div_term := arange_0_dim_2 in
  sines <- Torch.mul position div_term ;;
  _ <- Torch.setitem (mkTensor [max_length; (dim + 1) / 2]) sines ;;
  cosines <- Torch.mul position div_term ;;
  _ <- Torch.setitem (mkTensor [max_length; dim / 2]) cosines ;;
  Ok {| dropout := dropout;
        positional_encoding := positional_encoding |}.

(** [TemporalAttention(CrossAttentionMM)]: the fields of the attention
    capability and the positional encoder added by the subclass. *)
Record TemporalAttention : Type := mkTemporalAttention {
  query_dim : nat;
  context_dim : nat;
  heads : nat;
  dim_head : nat;
  attn_dropout : float;
  (** explicit attention-score scale factor; [None] is the default *)
  scale : option float;
  pos_encoder : PositionalEncoding
}.

(** [TemporalAttention.__init__(max_length, query_dim=, context_dim=,
    heads=, dim_head=, dropout=)].
    Modelled from the spec: [CrossAttentionMM.__init__] of [motion_utils]
    keeps its arguments, defaults the context dimension to the query
    dimension and starts with no scale override. *)
Definition TemporalAttention_init (max_length query_dim : nat)
  (context_dim : option nat) (heads dim_head : nat) (dropout : float)
  : result TemporalAttention :=
  pos_encoder <- PositionalEncoding_init query_dim 0%float max_length ;;
  Ok {| query_dim := query_dim;
        context_dim := match context_dim with Some d => d | None => query_dim end;
        heads := heads;
        dim_head := dim_head;
        attn_dropout := dropout;
        scale := None;
        pos_encoder := pos_encoder |}.

Record TransformerBlock : Type := mkTransformerBlock {
  is_cross : bool;
  attention_blocks : list TemporalAttention;
  norms : list LayerNorm;
  ff : FeedForward;
  ff_norm : LayerNorm
}.

Definition is_Some {A} (o : option A) : bool :=
  match o with Some _ => true | None => false end.

(** [n] evaluations of one constructor call, as in a loop or a
    comprehension over [range(n)]: the first that raises ends them. *)
Fixpoint rrepeat {A} (make : result A) (n : nat) : result (list A) :=
  match n with
  | 0 => Ok []
  | S n' => a <- make ;; rest <- rrepeat make n' ;; Ok (a :: rest)
  end.

(** [TransformerBlock.__init__].  Each round of the loop builds an
    attention and a [LayerNorm]; only the former can raise. *)
Definition TransformerBlock_init (dim num_attention_heads attention_head_dim : nat)
  (dropout : float) (activation_fn : string)
  (attention_bias upcast_attention : bool) (depth : nat)
  (cross_attention_dim : option nat) (max_length : nat)
  : result TransformerBlock :=
  attention_blocks <-
    rrepeat (TemporalAttention_init max_length dim cross_attention_dim
               num_attention_heads attention_head_dim dropout) depth ;;
  Ok {| is_cross := is_Some cross_attention_dim;
        attention_blocks := attention_blocks;
        norms := repeat (mkLayerNorm dim) depth;
        ff := mkFeedForward dim dropout (String.eqb activation_fn "geglu");
        ff_norm := mkLayerNorm dim |}.

(** The per-step state that the mixin [TemporalTransformerGeneric] of
    [motion_utils] keeps on a [TransformerTemporal]. *)
Record TemporalTransformerGeneric : Type := mkTemporal {
  video_length : nat;
  full_length : nat;
  scale_min : float;
  scale_max : float;
  raw_scale_mask : option Tensor;
  sub_idxs : option (list Z);
  temp_scale_mask : option Tensor
}.

(** Modelled from the spec: [temporal_transformer_init(default_length)] of
    [motion_utils]: the video length and the full length start at the
    default length, no mask and no sub-sequence indices are set. *)
Definition temporal_transformer_init (default_length : nat)
  : TemporalTransformerGeneric :=
  {| video_length := default_length;
     full_length := default_length;
     scale_min := 1%float;
     scale_max := 1%float;
     raw_scale_mask := None;
     sub_idxs := None;
     temp_scale_mask := None |}.

Record TransformerTemporal : Type := mkTransformerTemporal {
  temporal : TemporalTransformerGeneric;
  norm : GroupNormAD;
  proj_in : Linear;
  transformer_blocks : list TransformerBlock;
  proj_out : Linear
}.

Definition TransformerTemporal_init
  (num_attention_heads attention_head_dim in_channels num_layers : nat)
  (dropout : float) (norm_num_groups : nat) (cross_attention_dim : option nat)
  (attention_bias : bool) (activation_fn : string) (upcast_attention : bool)
  (max_length : nat) : result TransformerTemporal :=
  let inner_dim := num_attention_heads * attention_head_dim in
  norm <- GroupNormAD_init norm_num_groups in_channels eps_1e_6 true ;;
  transformer_blocks <-
    rrepeat (TransformerBlock_init inner_dim num_attention_heads
               attention_head_dim dropout activation_fn attention_bias
               upcast_attention 2 cross_attention_dim max_length)
            num_layers ;;
  Ok {| temporal := temporal_transformer_init 8;
        norm := norm;
        proj_in := mkLinear in_channels inner_dim;
        transformer_blocks := transformer_blocks;
        proj_out := mkLinear inner_dim in_channels |}.

Definition get_transformer_temporal (in_channels max_length : nat)
  : result TransformerTemporal :=
  let num_attention_heads := 8 in
  TransformerTemporal_init num_attention_heads
    (in_channels / num_attention_heads) in_channels 1 0%float 32 None false
    "geglu" false max_length.

Record HotShotXLMotionModule : Type := mkModule {
  temporal_attentions : list TransformerTemporal
}.

(** ** Calling [HotShotXLMotionModule(...)] with keyword arguments *)

Inductive pyval : Type :=
| VBlockType (b : BlockType)
| VInt (n : nat).

Definition kwargs : Type := list (string * pyval).

Fixpoint kw_lookup (name : string) (kw : kwargs) : option pyval :=
  match kw with
  | [] => None
  | (k, v) :: kw' => if String.eqb k name then Some v else kw_lookup name kw'
  end.

Definition unexpected_keyword_msg (k : string) : string :=
  "HotShotXLMotionModule.__init__() got an unexpected keyword argument '"
  ++ k ++ "'".

Definition multiple_values_msg (k : string) : string :=
  "HotShotXLMotionModule.__init__() got multiple values for argument '"
  ++ k ++ "'".

(** Binding of the keywords of a call with one positional argument to the
    signature [__init__(self, in_channels, block_type=BlockType.DOWN,
    max_length=24)]: a keyword that names no parameter is a [TypeError]. *)
Fixpoint check_keywords (kw : kwargs) : result unit :=
  match kw with
  | [] => Ok tt
  | (k, _) :: kw' =>
      if String.eqb k "block_type" || String.eqb k "max_length"
      then check_keywords kw'
      else if String.eqb k "in_channels"
           then Raise (TypeError (multiple_values_msg k))
           else Raise (TypeError (unexpected_keyword_msg k))
  end.

Definition bind_module_arguments (kw : kwargs) : result (pyval * pyval) :=
  _ <- check_keywords kw ;;
  Ok (match kw_lookup "block_type" kw with Some v => v | None => VBlockType DOWN end,
      match kw_lookup "max_length" kw with Some v => v | None => VInt 24 end).

Definition is_block_type (v : pyval) (b : BlockType) : bool :=
  match v with
  | VBlockType b' => BlockType_eqb b' b
  | VInt _ => false
  end.

(** [HotShotXLMotionModule.__init__].  A [max_length] that is no integer
    is refused where the positional-encoding buffer is allocated. *)
Definition HotShotXLMotionModule_init (in_channels : nat) (kw : kwargs)
  : result HotShotXLMotionModule :=
  args <- bind_module_arguments kw ;;
  let '(block_type, max_length) := args in
  match max_length with
  | VBlockType _ => Raise (TypeError "max_length must be an integer")
  | VInt max_length =>
      if is_block_type block_type MID then
        tt0 <- get_transformer_temporal in_channels max_length ;;
        Ok (mkModule [tt0])
      else
        tt0 <- get_transformer_temporal in_channels max_length ;;
        tt1 <- get_transformer_temporal in_channels max_length ;;
        if is_block_type block_type UP then
          tt2 <- get_transformer_temporal in_channels max_length ;;
          Ok (mkModule ([tt0; tt1] ++ [tt2]))
        else Ok (mkModule [tt0; tt1])
  end.

(* ================================================================== *)
(** * Computations that log what they do

    A computation threads a log of events and ends in a result; the log
    is kept when the computation raises. *)

Definition M (E A : Type) : Type := list E -> list E * result A.

Definition mret {E A} (a : A) : M E A := fun log => (log, Ok a).

Definition mbind {E A B} (m : M E A) (k : A -> M E B) : M E B :=
  fun log =>
    match m log with
    | (log', Ok a) => k a log'
    | (log', Raise e) => (log', Raise e)
    end.

Definition emit {E} (ev : E) : M E unit := fun log => (log ++ [ev], Ok tt).

Definition lift {E A} (r : result A) : M E A := fun log => (log, r).

Notation "x <~ m ;; k" := (mbind m (fun x => k))
  (at level 61, m at next level, right associativity).

Fixpoint mmap {E A B} (f : A -> M E B) (l : list A) : M E (list B) :=
  match l with
  | [] => mret []
  | a :: l' => b <~ f a ;; bs <~ mmap f l' ;; mret (b :: bs)
  end.

Fixpoint mfold {E A B} (f : A -> B -> M E A) (l : list B) (a : A) : M E A :=
  match l with
  | [] => mret a
  | b :: l' => a' <~ f a b ;; mfold f l' a'
  end.

Definition events {E A} (m : M E A) : list E := fst (m []).
Definition outcome {E A} (m : M E A) : result A := snd (m []).

(* ================================================================== *)
(** * [HotShotXLMotionWrapper] *)

Record HotShotXLMotionWrapper : Type := mkWrapper {
  down_blocks : list HotShotXLMotionModule;
  up_blocks : list HotShotXLMotionModule;
  mid_block : option HotShotXLMotionModule;
  encoding_max_len : nat;
  mm_hash : string;
  mm_name : string;
  version : string;
  injector_version : InjectorVersion;
  AD_video_length : nat;
  loras : option (list MotionLoRAInfo)
}.

(** What construction does, in the order in which it does it. *)
Inductive build_event : Type :=
| MaxLenLookup
| BlockCountValidation
| MidBlockCheck
| ModuleInstantiated (m : HotShotXLMotionModule).

(** A call of [HotShotXLMotionModule(...)]; the module exists once its
    constructor has returned. *)
Definition new_module (in_channels : nat) (kw : kwargs)
  : M build_event HotShotXLMotionModule :=
  m <~ lift (HotShotXLMotionModule_init in_channels kw) ;;
  _ <~ emit (ModuleInstantiated m) ;;
  mret m.

(** [HotShotXLMotionWrapper.__init__].  The constructor of the base class
    [GenericMotionWrapper] of [motion_utils] comes first and only stores
    what lines 74 to 79 store again. *)
Definition HotShotXLMotionWrapper_init (mm_state_dict : StateDict)
  (mm_hash mm_name : string) (loras : option (list MotionLoRAInfo))
  : M build_event HotShotXLMotionWrapper :=
  _ <~ emit MaxLenLookup ;;
  encoding_max_len <~
    lift (get_hsxl_temporal_position_encoding_max_len mm_state_dict mm_name) ;;
  _ <~ emit BlockCountValidation ;;
  _ <~ lift (validate_hsxl_block_count mm_state_dict mm_name) ;;
  down_blocks <~
    mmap (fun c => new_module c [("block_type", VBlockType DOWN);
                                 ("max_length", VInt encoding_max_len)])
         [320; 640; 1280] ;;
  up_blocks <~
    mmap (fun c => new_module c [("block_type", VBlockType UP);
                                 ("max_length", VInt encoding_max_len)])
         [1280; 640; 320] ;;
  _ <~ emit MidBlockCheck ;;
  mid_block <~
    (if has_mid_block mm_state_dict then
       m <~ new_module 1280 [("BlockType", VBlockType MID);
                             ("max_length", VInt encoding_max_len)] ;;
       mret (Some m)
     else mret None) ;;
  mret {| down_blocks := down_blocks;
          up_blocks := up_blocks;
          mid_block := mid_block;
          encoding_max_len := encoding_max_len;
          mm_hash := mm_hash;
          mm_name := mm_name;
          version := match mid_block with
                     | None => "HSXL v1"
                     | Some _ => "HSXL v2"
                     end;
          injector_version := HOTSHOTXL_V1;
          AD_video_length := 8;
          loras := loras |}.

Definition has_loras (self : HotShotXLMotionWrapper) : bool :=
  is_Some (loras self).

(* ================================================================== *)
(** * Setters *)

(** [math.isclose(a, b)] with its default tolerances
    [rel_tol=1e-09], [abs_tol=0.0]. *)
Definition isclose (a b : float) : bool :=
  if PrimFloat.eqb a b then true
  else if PrimFloat.is_infinity a || PrimFloat.is_infinity b then false
  else
    let diff := PrimFloat.abs (b - a) in
    PrimFloat.leb diff (PrimFloat.abs (rel_tol_1e_9 * b))
    || PrimFloat.leb diff (PrimFloat.abs (rel_tol_1e_9 * a))
    || PrimFloat.leb diff 0.

Definition with_scale (s : option float) (self : TemporalAttention)
  : TemporalAttention :=
  {| query_dim := query_dim self;
     context_dim := context_dim self;
     heads := heads self;
     dim_head := dim_head self;
     attn_dropout := attn_dropout self;
     scale := s;
     pos_encoder := pos_encoder self |}.

Definition TemporalAttention_set_scale_multiplier (multiplier : option float)
  (self : TemporalAttention) : TemporalAttention :=
  match multiplier with
  | None => with_scale None self
  | Some m =>
      if isclose m 1 then with_scale None self
      else with_scale (Some m) self
  end.

Definition TransformerBlock_set_scale_multiplier (multiplier : option float)
  (self : TransformerBlock) : TransformerBlock :=
  {| is_cross := is_cross self;
     attention_blocks :=
       map (TemporalAttention_set_scale_multiplier multiplier)
           (attention_blocks self);
     norms := norms self;
     ff := ff self;
     ff_norm := ff_norm self |}.

Definition with_temporal (st : TemporalTransformerGeneric)
  (self : TransformerTemporal) : TransformerTemporal :=
  {| temporal := st;
     norm := norm self;
     proj_in := proj_in self;
     transformer_blocks := transformer_blocks self;
     proj_out := proj_out self |}.

Definition TransformerTemporal_set_video_length (video_length full_length : nat)
  (self : TransformerTemporal) : TransformerTemporal :=
  let st := temporal self in
  with_temporal
    {| video_length := video_length;
       full_length := full_length;
       scale_min := scale_min st;
       scale_max := scale_max st;
       raw_scale_mask := raw_scale_mask st;
       sub_idxs := sub_idxs st;
       temp_scale_mask := temp_scale_mask st |} self.

Definition TransformerTemporal_set_scale_multiplier (multiplier : option float)
  (self : TransformerTemporal) : TransformerTemporal :=
  {| temporal := temporal self;
     norm := norm self;
     proj_in := proj_in self;
     transformer_blocks :=
       map (TransformerBlock_set_scale_multiplier multiplier)
           (transformer_blocks self);
     proj_out := proj_out self |}.

Definition TransformerTemporal_set_masks (masks : Tensor)
  (min_val max_val : float) (self : TransformerTemporal) : TransformerTemporal :=
  let st := temporal self in
  with_temporal
    {| video_length := video_length st;
       full_length := full_length st;
       scale_min := min_val;
       scale_max := max_val;
       raw_scale_mask := Some masks;
       sub_idxs := sub_idxs st;
       temp_scale_mask := temp_scale_mask st |} self.

Definition TransformerTemporal_set_sub_idxs (idxs : option (list Z))
  (self : TransformerTemporal) : TransformerTemporal :=
  let st := temporal self in
  with_temporal
    {| video_length := video_length st;
       full_length := full_length st;
       scale_min := scale_min st;
       scale_max := scale_max st;
       raw_scale_mask := raw_scale_mask st;
       sub_idxs := idxs;
       temp_scale_mask := temp_scale_mask st |} self.

(** Modelled from the spec: [reset_temp_vars] of the mixin
    [TemporalTransformerGeneric] of [motion_utils] drops the temporary
    state derived during a run, here the cached scale mask. *)
Definition TransformerTemporal_reset_temp_vars (self : TransformerTemporal)
  : TransformerTemporal :=
  let st := temporal self in
  with_temporal
    {| video_length := video_length st;
       full_length := full_length st;
       scale_min := scale_min st;
       scale_max := scale_max st;
       raw_scale_mask := raw_scale_mask st;
       sub_idxs := sub_idxs st;
       temp_scale_mask := None |} self.

(** Every setter of [HotShotXLMotionModule] is a loop over
    [self.temporal_attentions]. *)
Definition for_each_tt (f : TransformerTemporal -> TransformerTemporal)
  (self : HotShotXLMotionModule) : HotShotXLMotionModule :=
  {| temporal_attentions := map f (temporal_attentions self) |}.

(** Every setter of the wrapper loops over the down blocks, then the up
    blocks, then the mid block when there is one. *)
Definition for_each_block
  (f : HotShotXLMotionModule -> HotShotXLMotionModule)
  (ad_video_length : nat) (self : HotShotXLMotionWrapper)
  : HotShotXLMotionWrapper :=
  {| down_blocks := map f (down_blocks self);
     up_blocks := map f (up_blocks self);
     mid_block := option_map f (mid_block self);
     encoding_max_len := encoding_max_len self;
     mm_hash := mm_hash self;
     mm_name := mm_name self;
     version := version self;
     injector_version := injector_version self;
     AD_video_length := ad_video_length;
     loras := loras self |}.

Definition set_video_length (video_length full_length : nat)
  (self : HotShotXLMotionWrapper) : HotShotXLMotionWrapper :=
  for_each_block
    (for_each_tt (TransformerTemporal_set_video_length video_length full_length))
    video_length self.

Definition set_scale_multiplier (multiplier : option float)
  (self : HotShotXLMotionWrapper) : HotShotXLMotionWrapper :=
  for_each_block
    (for_each_tt (TransformerTemporal_set_scale_multiplier multiplier))
    (AD_video_length self) self.

Definition set_masks (masks : Tensor) (min_val max_val : float)
  (self : HotShotXLMotionWrapper) : HotShotXLMotionWrapper :=
  for_each_block
    (for_each_tt (TransformerTemporal_set_masks masks min_val max_val))
    (AD_video_length self) self.

Definition set_sub_idxs (idxs : option (list Z))
  (self : HotShotXLMotionWrapper) : HotShotXLMotionWrapper :=
  for_each_block (for_each_tt (TransformerTemporal_set_sub_idxs idxs))
    (AD_video_length self) self.

Definition reset_temp_vars (self : HotShotXLMotionWrapper)
  : HotShotXLMotionWrapper :=
  for_each_block (for_each_tt TransformerTemporal_reset_temp_vars)
    (AD_video_length self) self.

(** A call of one of the five setters. *)
Inductive setter_call : Type :=
| SetVideoLength (video_length full_length : nat)
| SetScaleMultiplier (multiplier : option float)
| SetMasks (masks : Tensor) (min_val max_val : float)
| SetSubIdxs (idxs : option (list Z))
| ResetTempVars.

Definition call_setter (self : HotShotXLMotionWrapper) (c : setter_call)
  : HotShotXLMotionWrapper :=
  match c with
  | SetVideoLength v f => set_video_length v f self
  | SetScaleMultiplier m => set_scale_multiplier m self
  | SetMasks masks lo hi => set_masks masks lo hi self
  | SetSubIdxs idxs => set_sub_idxs idxs self
  | ResetTempVars => reset_temp_vars self
  end.

(** The same calls as they reach one [TransformerTemporal] of the tree. *)
Definition call_tt_setter (self : TransformerTemporal) (c : setter_call)
  : TransformerTemporal :=
  match c with
  | SetVideoLength v f => TransformerTemporal_set_video_length v f self
  | SetScaleMultiplier m => TransformerTemporal_set_scale_multiplier m self
  | SetMasks masks lo hi => TransformerTemporal_set_masks masks lo hi self
  | SetSubIdxs idxs => TransformerTemporal_set_sub_idxs idxs self
  | ResetTempVars => TransformerTemporal_reset_temp_vars self
  end.

(** ** The parts of the tree *)

Definition wrapper_modules (self : HotShotXLMotionWrapper)
  : list HotShotXLMotionModule :=
  down_blocks self ++ up_blocks self
  ++ match mid_block self with Some m => [m] | None => [] end.

Definition tt_attentions (self : TransformerTemporal) : list TemporalAttention :=
  flat_map attention_blocks (transformer_blocks self).

Definition wrapper_tts (self : HotShotXLMotionWrapper)
  : list TransformerTemporal :=
  flat_map temporal_attentions (wrapper_modules self).

Definition wrapper_attentions (self : HotShotXLMotionWrapper)
  : list TemporalAttention :=
  flat_map tt_attentions (wrapper_tts self).

Definition wrapper_pos_encoders (self : HotShotXLMotionWrapper)
  : list PositionalEncoding :=
  map pos_encoder (wrapper_attentions self).

Definition module_pos_encoders (self : HotShotXLMotionModule)
  : list PositionalEncoding :=
  map pos_encoder (flat_map tt_attentions (temporal_attentions self)).

(* ================================================================== *)
(** * Capabilities of [motion_utils] in a forward pass *)

(** Modelled from the spec: the group-normalization capability returns a
    tensor of the shape of its input, whose second dimension is the
    configured channel count. *)
Definition GroupNormAD_forward (self : GroupNormAD) (x : Tensor) : result Tensor :=
  match shape x with
  | _ :: c :: _ =>
      if (c =? num_channels self)%nat then Ok x else Raise RuntimeError
  | _ => Raise RuntimeError
  end.

(** Modelled from the spec: the feed-forward capability maps the last
    dimension [dim] to itself. *)
Definition FeedForward_forward (self : FeedForward) (x : Tensor) : result Tensor :=
  if Torch.last_is (ff_dim self) x then Ok x else Raise RuntimeError.

(** Modelled from the spec: the attention capability
    ([CrossAttentionMM.forward] of [motion_utils]) takes the query, an
    optional context, a mask and a scale mask and returns a tensor of the
    shape of the query. *)
Definition CrossAttentionMM_forward (self : TemporalAttention) (x : Tensor)
  (context mask scale_mask : option Tensor) : result Tensor :=
  if Torch.last_is (query_dim self) x
     && match context with
        | Some ctx => Torch.last_is (context_dim self) ctx
        | None => true
        end
  then Ok x else Raise RuntimeError.

(* ================================================================== *)
(** * Forward computation *)

(** What a forward pass logs: each entry into [TemporalAttention.forward]
    with the context it received, and each execution of the
    context-repetition branch. *)
Inductive forward_event : Type :=
| AttentionCalled (encoder_hidden_states : option Tensor)
| ContextRepeated.

Section Forward.

(** [bool(t)] of a tensor depends on its element; it raises for a tensor
    of several elements. *)
Variable tensor_bool : Tensor -> result bool.

(** [get_scale_mask] of the mixin [TemporalTransformerGeneric]: the scale
    mask derived from the mask state, or [None] when no mask is set. *)
Variable get_scale_mask : TemporalTransformerGeneric -> Tensor -> option Tensor.

(** The truth value tested by [if encoder_hidden_states:]. *)
Definition truth (o : option Tensor) : result bool :=
  match o with
  | None => Ok false
  | Some t => tensor_bool t
  end.

Definition PositionalEncoding_forward (self : PositionalEncoding)
  (hidden_states : Tensor) (length : nat) : result Tensor :=
  pe <- Torch.slice_second length (positional_encoding self) ;;
  Torch.add hidden_states pe.

Definition TemporalAttention_forward (self : TemporalAttention)
  (hidden_states : Tensor) (encoder_hidden_states attention_mask : option Tensor)
  (number_of_frames : nat) (scale_mask : option Tensor)
  : M forward_event Tensor :=
  _ <~ emit (AttentionCalled encoder_hidden_states) ;;
  sequence_length <~ lift (size hidden_states 1) ;;
  hidden_states <~
    lift (Torch.rearrange_frames_in number_of_frames hidden_states) ;;
  hidden_states <~
    lift (PositionalEncoding_forward (pos_encoder self) hidden_states
            number_of_frames) ;;
  taken <~ lift (truth encoder_hidden_states) ;;
  encoder_hidden_states <~
    (if taken then
       _ <~ emit ContextRepeated ;;
       match encoder_hidden_states with
       | Some ctx =>
           r <~ lift (Torch.repeat_batch sequence_length ctx) ;; mret (Some r)
       | None => mret None
       end
     else mret encoder_hidden_states) ;;
  hidden_states <~
    lift (CrossAttentionMM_forward self hidden_states encoder_hidden_states
            attention_mask scale_mask) ;;
  lift (Torch.rearrange_frames_out sequence_length hidden_states).

(** One round of the loop over [zip(self.attention_blocks, self.norms)]. *)
Definition attention_round
  (encoder_hidden_states attention_mask : option Tensor)
  (number_of_frames : nat) (scale_mask : option Tensor)
  (hidden_states : Tensor) (bn : TemporalAttention * LayerNorm)
  : M forward_event Tensor :=
  norm_hidden_states <~ lift (Torch.LayerNorm_forward (snd bn) hidden_states) ;;
  out <~ TemporalAttention_forward (fst bn) norm_hidden_states
           encoder_hidden_states attention_mask number_of_frames scale_mask ;;
  lift (Torch.add out hidden_states).

Definition TransformerBlock_forward (self : TransformerBlock)
  (hidden_states : Tensor) (encoder_hidden_states attention_mask : option Tensor)
  (number_of_frames : nat) (scale_mask : option Tensor)
  : M forward_event Tensor :=
  let encoder_hidden_states :=
    if negb (is_cross self) then None else encoder_hidden_states in
  hidden_states <~
    mfold (attention_round encoder_hidden_states attention_mask
             number_of_frames scale_mask)
          (combine (attention_blocks self) (norms self)) hidden_states ;;
  norm_hidden_states <~
    lift (Torch.LayerNorm_forward (ff_norm self) hidden_states) ;;
  ff_out <~ lift (FeedForward_forward (ff self) norm_hidden_states) ;;
  lift (Torch.add ff_out hidden_states).

Definition TransformerTemporal_forward (self : TransformerTemporal)
  (hidden_states : Tensor) (encoder_hidden_states attention_mask : option Tensor)
  : M forward_event Tensor :=
  dims <~ lift (Torch.unpack4 hidden_states) ;;
  let '(batch, channel, height, width) := dims in
  let residual := hidden_states in
  let scale_mask := get_scale_mask (temporal self) hidden_states in
  hidden_states <~ lift (GroupNormAD_forward (norm self) hidden_states) ;;
  inner_dim <~ lift (size hidden_states 1) ;;
  hidden_states <~ lift (Torch.permute [0; 2; 3; 1] hidden_states) ;;
  hidden_states <~
    lift (Torch.reshape [batch; height * width; inner_dim] hidden_states) ;;
  hidden_states <~ lift (Torch.Linear_forward (proj_in self) hidden_states) ;;
  hidden_states <~
    mfold (fun h block =>
             TransformerBlock_forward block h encoder_hidden_states
               attention_mask (video_length (temporal self)) scale_mask)
          (transformer_blocks self) hidden_states ;;
  hidden_states <~ lift (Torch.Linear_forward (proj_out self) hidden_states) ;;
  hidden_states <~
    lift (Torch.reshape [batch; height; width; inner_dim] hidden_states) ;;
  hidden_states <~ lift (Torch.permute [0; 3; 1; 2] hidden_states) ;;
  lift (Torch.add hidden_states residual).

End Forward.

(* ================================================================== *)
(** * Notions used to state the properties *)

(** ** What the block-count loop reads *)

(** [key.split(".")[1]], when the key has a second segment. *)
Definition second_segment (key : string) : option string :=
  nth_error (PyStr.split "." key) 1.

(** The block number read off a key: keys without the marker, and second
    segments that are no integer, give none. *)
Definition block_number (key : string) : option Z :=
  if PyStr.contains down_blocks_marker key then
    match second_segment key with
    | Some block_int => PyStr.int block_int
    | None => None
    end
  else None.

(** The biggest block number read, starting from 0. *)
Definition biggest_block_number (ks : list string) : Z :=
  fold_left (fun biggest key =>
               match block_number key with
               | Some n => if (n >? biggest)%Z then n else biggest
               | None => biggest
               end) ks 0%Z.

(** Every key that has the marker has a second segment. *)
Definition marked_keys_have_second_segment (ks : list string) : Prop :=
  forall key, In key ks -> PyStr.contains down_blocks_marker key = true ->
              second_segment key <> None.

(** ** The down-level index in the words of the spec

    "Scans keys containing a down-level marker, parses the segment
    following it as an integer index, tracks the maximum found." *)

(** The segment that follows the segment holding the marker. *)
Fixpoint segment_after_marker (segments : list string) : option string :=
  match segments with
  | [] => None
  | seg :: rest =>
      if PyStr.contains down_blocks_marker seg then hd_error rest
      else segment_after_marker rest
  end.

Definition spec_down_index (key : string) : option Z :=
  match segment_after_marker (PyStr.split "." key) with
  | Some seg => PyStr.int seg
  | None => None
  end.

(** The maximum index found, [None] when no key carries an index. *)
Definition spec_max_down_index (ks : list string) : option Z :=
  fold_left (fun best key =>
               match spec_down_index key, best with
               | Some n, Some b => Some (Z.max b n)
               | Some n, None => Some n
               | None, _ => best
               end) ks None.

(** ** What construction builds when it succeeds *)

Definition built_attention (c max_length : nat) : TemporalAttention :=
  {| query_dim := 8 * (c / 8);
     context_dim := 8 * (c / 8);
     heads := 8;
     dim_head := c / 8;
     attn_dropout := 0%float;
     scale := None;
     pos_encoder :=
       {| dropout := 0%float;
          positional_encoding := mkTensor [1; max_length; 8 * (c / 8)] |} |}.

Definition built_block (c max_length : nat) : TransformerBlock :=
  {| is_cross := false;
     attention_blocks := repeat (built_attention c max_length) 2;
     norms := repeat (mkLayerNorm (8 * (c / 8))) 2;
     ff := mkFeedForward (8 * (c / 8)) 0%float true;
     ff_norm := mkLayerNorm (8 * (c / 8)) |}.

Definition built_tt (c max_length : nat) : TransformerTemporal :=
  {| temporal := temporal_transformer_init 8;
     norm := mkGroupNormAD 32 c eps_1e_6 true;
     proj_in := mkLinear c (8 * (c / 8));
     transformer_blocks := [built_block c max_length];
     proj_out := mkLinear (8 * (c / 8)) c |}.

Definition tt_count (b : BlockType) : nat :=
  match b with DOWN => 2 | MID => 1 | UP => 3 end.

Definition built_module (b : BlockType) (max_length c : nat)
  : HotShotXLMotionModule :=
  mkModule (repeat (built_tt c max_length) (tt_count b)).

Definition built_down (max_length : nat) : list HotShotXLMotionModule :=
  map (built_module DOWN max_length) [320; 640; 1280].

Definition built_up (max_length : nat) : list HotShotXLMotionModule :=
  map (built_module UP max_length) [1280; 640; 320].

Definition built_wrapper (max_length : nat) (mm_hash mm_name : string)
  (loras : option (list MotionLoRAInfo)) : HotShotXLMotionWrapper :=
  {| down_blocks := built_down max_length;
     up_blocks := built_up max_length;
     mid_block := None;
     encoding_max_len := max_length;
     mm_hash := mm_hash;
     mm_name := mm_name;
     version := "HSXL v1";
     injector_version := HOTSHOTXL_V1;
     AD_video_length := 8;
     loras := loras |}.

(** The calls of lines 69 and 71, for a block type, a maximum length and
    a channel count, and what they return. *)
Definition module_call (b : BlockType) (max_length c : nat)
  : result HotShotXLMotionModule :=
  HotShotXLMotionModule_init c
    [("block_type", VBlockType b); ("max_length", VInt max_length)].

Definition returned_by (b : BlockType) (max_length : nat)
  (channels : list nat) (ms : list HotShotXLMotionModule) : Prop :=
  Forall2 (fun c m => module_call b max_length c = Ok m) channels ms.

(** The log of a construction that gets past both validators, up to the
    check for a mid block. *)
Definition built_events (max_length : nat) : list build_event :=
  [MaxLenLookup; BlockCountValidation]
  ++ map ModuleInstantiated (built_down max_length ++ built_up max_length)
  ++ [MidBlockCheck].

(** ** Configurations that fit together

    What a forward pass needs of the layers of a [TransformerTemporal]
    with [c] input channels, inner dimension [inner] and positional
    encoders of [max_length] positions. *)

Definition attention_fits (c max_length : nat) (ta : TemporalAttention) : Prop :=
  query_dim ta = c
  /\ positional_encoding (pos_encoder ta) = mkTensor [1; max_length; c].

Definition block_fits (c max_length : nat) (b : TransformerBlock) : Prop :=
  is_cross b = false
  /\ Forall (attention_fits c max_length) (attention_blocks b)
  /\ Forall (fun ln => normalized_shape ln = c) (norms b)
  /\ ff_dim (ff b) = c
  /\ normalized_shape (ff_norm b) = c.

Definition tt_fits (c inner max_length : nat) (t : TransformerTemporal) : Prop :=
  num_channels (norm t) = c
  /\ proj_in t = mkLinear c inner
  /\ proj_out t = mkLinear inner c
  /\ Forall (block_fits inner max_length) (transformer_blocks t).

(** The buffer of a positional encoder has [max_length] positions. *)
Definition sized_by (max_length : nat) (pe : PositionalEncoding) : Prop :=
  exists dim, positional_encoding pe = mkTensor [1; max_length; dim].

(** ** Logs *)

(** A computation only ever appends events that satisfy [P]. *)
Definition emits_only {E A} (P : E -> Prop) (m : M E A) : Prop :=
  forall log, exists evs, fst (m log) = log ++ evs /\ Forall P evs.

Definition context_is_none (ev : forward_event) : Prop :=
  ev = AttentionCalled None.

(** ** Sample weight dictionaries *)

Definition pos_key : string :=
  "down_blocks.0.temporal_attentions.0.transformer_blocks.0.attention_blocks.0.pos_encoder.positional_encoding".

(** Keys of a first-generation checkpoint: three down levels, no mid block. *)
Definition sd_v1 : StateDict :=
  [ ("down_blocks.0.temporal_attentions.0.proj_in.weight", mkTensor [320; 320]);
    (pos_key, mkTensor [1; 24; 320]);
    ("down_blocks.1.temporal_attentions.0.proj_in.weight", mkTensor [640; 640]);
    ("down_blocks.2.temporal_attentions.0.proj_in.weight", mkTensor [1280; 1280]);
    ("up_blocks.0.temporal_attentions.0.proj_in.weight", mkTensor [1280; 1280]) ].

(** The same with a temporal key of a mid block. *)
Definition sd_v2 : StateDict :=
  sd_v1 ++ [ ("mid_block.temporal_attentions.0.proj_in.weight",
              mkTensor [1280; 1280]) ].

(** A key that holds the marker and has no dot. *)
Definition sd_bare_marker : StateDict :=
  [ ("down_blocks", mkTensor [1]); (pos_key, mkTensor [1; 24; 320]) ].

(** A key whose second segment is 2 and in which the marker comes third,
    followed by the segment 1. *)
Definition sd_marker_third : StateDict :=
  [ ("motion.2.down_blocks.1.proj_in.weight", mkTensor [640; 640]);
    ("pos_encoder.positional_encoding", mkTensor [1; 24; 320]) ].

(** Only two down levels. *)
Definition sd_two_levels : StateDict :=
  [ ("down_blocks.0.temporal_attentions.0.proj_in.weight", mkTensor [320; 320]);
    (pos_key, mkTensor [1; 24; 320]);
    ("down_blocks.1.temporal_attentions.0.proj_in.weight", mkTensor [640; 640]) ].

(** Implementations of the two capabilities the forward pass is
    parametric in, for running it: a truth test that refuses every tensor
    and a scale mask that is never set. *)
Definition no_tensor_bool (t : Tensor) : result bool := Raise RuntimeError.
Definition no_scale_mask (st : TemporalTransformerGeneric) (x : Tensor)
  : option Tensor := None.

(** A truth test that finds every tensor true, so that a context that
    reached [if encoder_hidden_states:] would take the branch. *)
Definition every_tensor_true (t : Tensor) : result bool := Ok true.

(** ** Notions for the further properties *)

(** Two dictionaries with the same keys, in any order. *)
Definition same_keys (sd sd' : StateDict) : Prop :=
  forall key, In key (keys sd) <-> In key (keys sd').

(** A key of the layout [down_blocks.<i>.<rest>] with [i] one of 0, 1, 2. *)
Definition conventional_down_key (key : string) : bool :=
  PyStr.startswith key "down_blocks.0."
  || PyStr.startswith key "down_blocks.1."
  || PyStr.startswith key "down_blocks.2.".

(** The number of children that the keywords of a call of
    [HotShotXLMotionModule] select, and the maximum length they give. *)
Definition children_by_keyword (kw : kwargs) : nat :=
  match kw_lookup "block_type" kw with
  | Some (VBlockType MID) => 1
  | Some (VBlockType UP) => 3
  | _ => 2
  end.

Definition max_length_by_keyword (kw : kwargs) : option nat :=
  match kw_lookup "max_length" kw with
  | Some (VInt n) => Some n
  | Some (VBlockType _) => None
  | None => Some 24
  end.

(** The scale that a multiplier leaves on a [TemporalAttention]. *)
Definition effective_scale (multiplier : option float) : option float :=
  match multiplier with
  | None => None
  | Some m => if isclose m 1 then None else Some m
  end.

(** Which of the setters a call is. *)
Definition setter_kind (c : setter_call) : nat :=
  match c with
  | SetVideoLength _ _ => 0
  | SetScaleMultiplier _ => 1
  | SetMasks _ _ _ => 2
  | SetSubIdxs _ => 3
  | ResetTempVars => 4
  end.

(** The per-module numbers of [TransformerTemporal]s and their channel
    counts. *)
Definition module_sizes (ms : list HotShotXLMotionModule) : list nat :=
  map (fun m => List.length (temporal_attentions m)) ms.

Definition module_channels (ms : list HotShotXLMotionModule) : list (list nat) :=
  map (fun m => map (fun t => num_channels (norm t)) (temporal_attentions m)) ms.

(** A dictionary whose positional-encoding tensor has one dimension. *)
Definition sd_flat_encoding : StateDict :=
  [ ("down_blocks.2.temporal_attentions.0.proj_in.weight", mkTensor [1280; 1280]);
    ("pos_encoder.positional_encoding", mkTensor [24]) ].

(** [sd_v1] with its entries in another order. *)
Definition sd_v1_reordered : StateDict :=
  [ ("up_blocks.0.temporal_attentions.0.proj_in.weight", mkTensor [1280; 1280]);
    ("down_blocks.2.temporal_attentions.0.proj_in.weight", mkTensor [1280; 1280]);
    ("down_blocks.1.temporal_attentions.0.proj_in.weight", mkTensor [640; 640]);
    (pos_key, mkTensor [1; 24; 320]);
    ("down_blocks.0.temporal_attentions.0.proj_in.weight", mkTensor [320; 320]) ].

(** The first block of a [TransformerTemporal] and its first attention and
    normalization exist. *)
Definition has_first_attention (t : TransformerTemporal) : Prop :=
  exists b brest a arest ln nrest,
    transformer_blocks t = b :: brest
    /\ attention_blocks b = a :: arest
    /\ norms b = ln :: nrest.

(** Two positional-encoding tensors of different lengths. *)
Definition sd_two_lengths : StateDict :=
  sd_v1 ++ [ ("up_blocks.0.temporal_attentions.0.transformer_blocks.0.attention_blocks.0.pos_encoder.positional_encoding",
              mkTensor [1; 32; 1280]) ].

(* ================================================================== *)
(** * Proof support *)

(** Case analysis on the prefix [pre] of a log written out in [H]. *)
Ltac destruct_prefix pre H :=
  repeat (destruct pre as [| ? pre]; simpl in H;
          [ try discriminate H; try (injection H as H; subst)
          | try discriminate H; injection H as ? H; subst ]).

Create Rewrite HintDb logs.

(** Runs the steps of a logging computation whose results are known; the
    rewrite rules of [logs] are the laws of [mbind] proved below. *)
Ltac run_log := repeat (progress (autorewrite with logs; cbv beta iota)).

(* ================================================================== *)
(** * Laws of logging computations *)

Lemma mbind_assoc E A B C (m : M E A) (k1 : A -> M E B) (k2 : B -> M E C)
  (log : list E) :
  mbind (mbind m k1) k2 log = mbind m (fun a => mbind (k1 a) k2) log.
Proof. unfold mbind. destruct (m log) as [log' [a | e]]; reflexivity. Qed.

Lemma mbind_lift_ok E A B (a : A) (k : A -> M E B) (log : list E) :
  mbind (lift (Ok a)) k log = k a log.
Proof. reflexivity. Qed.

Lemma mbind_mret E A B (a : A) (k : A -> M E B) (log : list E) :
  mbind (mret a) k log = k a log.
Proof. reflexivity. Qed.

Lemma mbind_emit E B (ev : E) (k : unit -> M E B) (log : list E) :
  mbind (emit ev) k log = k tt (log ++ [ev]).
Proof. reflexivity. Qed.

Lemma mbind_run E A B (m : M E A) (k : A -> M E B) (log log' : list E) (a : A) :
  m log = (log', Ok a) -> mbind m k log = k a log'.
Proof. intros H. unfold mbind. rewrite H. reflexivity. Qed.

#[global] Hint Rewrite mbind_assoc mbind_lift_ok mbind_mret mbind_emit : logs.

Section Logs.
Variables (E : Type) (P : E -> Prop).

Lemma emits_only_ret A (a : A) : emits_only P (@mret E A a).
Proof. intros log. exists []. split; [symmetry; apply app_nil_r | constructor]. Qed.

Lemma emits_only_lift A (r : result A) : emits_only P (@lift E A r).
Proof. intros log. exists []. split; [symmetry; apply app_nil_r | constructor]. Qed.

Lemma emits_only_emit (ev : E) : P ev -> emits_only P (emit ev).
Proof.
  intros Hev log. exists [ev]. split; [reflexivity | repeat constructor; exact Hev].
Qed.

Lemma emits_only_bind A B (m : M E A) (k : A -> M E B) :
  emits_only P m ->
  (forall a log, snd (m log) = Ok a -> emits_only P (k a)) ->
  emits_only P (mbind m k).
Proof.
  intros Hm Hk log. unfold mbind.
  destruct (Hm log) as (evs & Hlog & Hevs).
  specialize (Hk) with (log := log).
  destruct (m log) as [log' [a | e]]; simpl in *; subst log'.
  - destruct (Hk a eq_refl (log ++ evs)) as (evs' & Hlog' & Hevs').
    exists (evs ++ evs'). split.
    + rewrite Hlog'. symmetry. apply app_assoc.
    + apply Forall_app. split; assumption.
  - exists evs. split; [reflexivity | exact Hevs].
Qed.

Lemma emits_only_mfold A B (f : A -> B -> M E A) (l : list B) (a : A) :
  (forall a b, In b l -> emits_only P (f a b)) ->
  emits_only P (mfold f l a).
Proof.
  revert a. induction l as [| b l IH]; intros a Hf; simpl.
  - apply emits_only_ret.
  - apply emits_only_bind.
    + apply Hf. left. reflexivity.
    + intros a' _ _. apply IH. intros a0 b0 Hb0. apply Hf. right. exact Hb0.
Qed.

Lemma emits_only_events A (m : M E A) : emits_only P m -> Forall P (events m).
Proof.
  intros Hm. unfold events. destruct (Hm []) as (evs & -> & Hevs). exact Hevs.
Qed.

End Logs.

(* ================================================================== *)
(** * Construction *)

(** ** The constructors of the layers *)

Lemma rrepeat_ok {A} (make : result A) (a : A) (n : nat) :
  make = Ok a -> rrepeat make n = Ok (repeat a n).
Proof.
  intros ->. induction n as [| n IH]; simpl; [reflexivity |].
  rewrite IH. reflexivity.
Qed.

Lemma rrepeat_inv {A} (make : result A) (n : nat) (l : list A) :
  rrepeat make n = Ok l ->
  List.length l = n /\ Forall (fun a => make = Ok a) l.
Proof.
  revert l. induction n as [| n IH]; simpl; intros l H.
  - injection H as <-. split; [reflexivity | constructor].
  - destruct make as [a | e] eqn:Hmake; simpl in H; [| discriminate].
    destruct (rrepeat (Ok a) n) as [rest | e] eqn:Hrest; simpl in H;
      [| discriminate].
    injection H as <-. destruct (IH rest eq_refl) as [Hlen Hall].
    split; [simpl; congruence | constructor; [reflexivity | exact Hall]].
Qed.

Lemma rrepeat_raise {A} (make : result A) (e : exn) (n : nat) :
  make = Raise e -> n <> 0 -> rrepeat make n = Raise e.
Proof.
  intros -> Hn. destruct n as [| n]; [contradiction | reflexivity].
Qed.

(** The product of a column of positions and a row of frequencies. *)
Lemma mul_column_row (len c : nat) :
  Torch.mul (mkTensor [len; 1]) (mkTensor [c]) = Ok (mkTensor [len; c]).
Proof.
  unfold Torch.mul. cbn [shape rev app Torch.broadcast_rev rbind].
  destruct (Nat.eqb_spec 1 c) as [<- | _]; reflexivity.
Qed.

(** Writing [c] computed columns into [f] columns of a buffer works when
    there are as many, or when one computed column is broadcast. *)
Lemma setitem_columns (len c f : nat) :
  Torch.setitem (mkTensor [len; f]) (mkTensor [len; c])
  = if (c =? f)%nat || (c =? 1)%nat then Ok tt else Raise RuntimeError.
Proof.
  unfold Torch.setitem. cbn [shape].
  destruct len as [| [| len]].
  - cbn. rewrite andb_true_r. reflexivity.
  - destruct c as [| [| c]].
    + cbn. rewrite andb_true_r. reflexivity.
    + cbn. rewrite orb_true_r. reflexivity.
    + cbn [Torch.strip_ones rev app Torch.expands_rev].
      rewrite andb_true_r. reflexivity.
  - cbn [Torch.strip_ones rev app Torch.expands_rev].
    rewrite Nat.eqb_refl.
    destruct ((c =? f)%nat || (c =? 1)%nat); reflexivity.
Qed.

(** [PositionalEncoding.__init__] by cases: a dropout probability outside
    of [0, 1], a zero dimension, and an odd dimension other than 1 make it
    raise; otherwise the buffer has the shape [(1, max_length, dim)]. *)
Lemma PositionalEncoding_init_cases (dim : nat) (p : float) (max_length : nat) :
  PositionalEncoding_init dim p max_length
  = if PrimFloat.ltb p 0 || PrimFloat.ltb 1 p then Raise ValueError
    else if (dim =? 0)%nat then Raise ZeroDivisionError
    else if ((dim + 1) / 2 =? dim / 2)%nat || ((dim + 1) / 2 =? 1)%nat
         then Ok {| dropout := p;
                    positional_encoding := mkTensor [1; max_length; dim] |}
         else Raise RuntimeError.
Proof.
  unfold PositionalEncoding_init, Dropout_init.
  destruct (PrimFloat.ltb p 0 || PrimFloat.ltb 1 p); [reflexivity |].
  cbn [rbind].
  destruct (dim =? 0)%nat; [reflexivity |].
  rewrite mul_column_row. cbn [rbind].
  rewrite !setitem_columns. rewrite Nat.eqb_refl. cbn [orb rbind].
  destruct (((dim + 1) / 2 =? dim / 2)%nat || ((dim + 1) / 2 =? 1)%nat);
    reflexivity.
Qed.

Lemma PositionalEncoding_init_inv dim p max_length pe :
  PositionalEncoding_init dim p max_length = Ok pe ->
  pe = {| dropout := p; positional_encoding := mkTensor [1; max_length; dim] |}.
Proof.
  rewrite PositionalEncoding_init_cases.
  destruct (PrimFloat.ltb p 0 || PrimFloat.ltb 1 p); [discriminate |].
  destruct (dim =? 0)%nat; [discriminate |].
  destruct (((dim + 1) / 2 =? dim / 2)%nat || ((dim + 1) / 2 =? 1)%nat);
    [| discriminate].
  intros H. injection H as <-. reflexivity.
Qed.

Lemma half_of_even (m : nat) : (2 * m + 1) / 2 = m /\ (2 * m) / 2 = m.
Proof.
  split.
  - symmetry. apply Nat.div_unique with (r := 1); lia.
  - symmetry. apply Nat.div_unique with (r := 0); lia.
Qed.

(** An even dimension other than 0 is accepted. *)
Lemma PositionalEncoding_init_even (m max_length : nat) :
  m <> 0 ->
  PositionalEncoding_init (2 * m) 0%float max_length
  = Ok {| dropout := 0%float;
          positional_encoding := mkTensor [1; max_length; 2 * m] |}.
Proof.
  intros Hm. rewrite PositionalEncoding_init_cases.
  change (PrimFloat.ltb 0 0 || PrimFloat.ltb 1 0) with false. cbv iota.
  destruct (Nat.eqb_spec (2 * m) 0) as [H0 | _]; [lia |].
  destruct (half_of_even m) as [-> ->]. rewrite Nat.eqb_refl. reflexivity.
Qed.

(** The dimensions 0 and 321 and the dropout probability 2 are refused;
    the dimension 1 is accepted, its one computed column being broadcast to
    the empty slice [1::2]. *)
Example positional_encoding_init_examples :
  PositionalEncoding_init 0 0%float 24 = Raise ZeroDivisionError
  /\ PositionalEncoding_init 321 0%float 24 = Raise RuntimeError
  /\ PositionalEncoding_init 320 2%float 24 = Raise ValueError
  /\ PositionalEncoding_init 1 0%float 24
     = Ok (mkPositionalEncoding 0%float (mkTensor [1; 24; 1]))
  /\ PositionalEncoding_init 320 0%float 24
     = Ok (mkPositionalEncoding 0%float (mkTensor [1; 24; 320])).
Proof. repeat split; vm_compute; reflexivity. Qed.

Lemma TemporalAttention_init_inv max_length q ctx h dh d ta :
  TemporalAttention_init max_length q ctx h dh d = Ok ta ->
  ta = {| query_dim := q;
          context_dim := match ctx with Some c => c | None => q end;
          heads := h; dim_head := dh; attn_dropout := d; scale := None;
          pos_encoder :=
            {| dropout := 0%float;
               positional_encoding := mkTensor [1; max_length; q] |} |}.
Proof.
  unfold TemporalAttention_init.
  destruct (PositionalEncoding_init q 0 max_length) as [pe | e] eqn:Hpe;
    [| discriminate].
  apply PositionalEncoding_init_inv in Hpe. subst pe.
  intros H. injection H as <-. reflexivity.
Qed.

Lemma TransformerBlock_init_inv dim h dh d act bias up depth cross max_length b :
  TransformerBlock_init dim h dh d act bias up depth cross max_length = Ok b ->
  b = {| is_cross := is_Some cross;
         attention_blocks :=
           repeat {| query_dim := dim;
                     context_dim := match cross with Some c => c | None => dim end;
                     heads := h; dim_head := dh; attn_dropout := d;
                     scale := None;
                     pos_encoder :=
                       {| dropout := 0%float;
                          positional_encoding :=
                            mkTensor [1; max_length; dim] |} |} depth;
         norms := repeat (mkLayerNorm dim) depth;
         ff := mkFeedForward dim d (String.eqb act "geglu");
         ff_norm := mkLayerNorm dim |}.
Proof.
  unfold TransformerBlock_init.
  destruct (rrepeat (TemporalAttention_init max_length dim cross h dh d) depth)
    as [l | e] eqn:Hl; [| discriminate].
  intros H. injection H as <-. f_equal.
  apply rrepeat_inv in Hl. destruct Hl as [Hlen Hall].
  subst depth. clear -Hall.
  induction Hall as [| a l Ha _ IH]; [reflexivity |].
  cbn [List.length repeat]. f_equal; [| exact IH].
  apply TemporalAttention_init_inv in Ha. exact Ha.
Qed.

(** The block that [get_transformer_temporal] asks for. *)
Lemma built_block_ok (c n : nat) :
  8 <= c ->
  TransformerBlock_init (8 * (c / 8)) 8 (c / 8) 0%float "geglu" false false 2
    None n = Ok (built_block c n).
Proof.
  intros Hc. unfold TransformerBlock_init.
  assert (Hq : c / 8 <> 0).
  { intros H0. apply Nat.div_small_iff in H0; lia. }
  assert (Ha : TemporalAttention_init n (8 * (c / 8)) None 8 (c / 8) 0%float
               = Ok (built_attention c n)).
  { unfold TemporalAttention_init.
    replace (8 * (c / 8)) with (2 * (4 * (c / 8))) by lia.
    rewrite PositionalEncoding_init_even by lia.
    replace (2 * (4 * (c / 8))) with (8 * (c / 8)) by lia. reflexivity. }
  rewrite (rrepeat_ok 2 Ha). reflexivity.
Qed.

(** A channel count other than 0 that 32 divides gives the
    [TransformerTemporal] of [built_tt]; no other channel count gives
    one. *)
Lemma get_transformer_temporal_ok (c n : nat) :
  c mod 32 = 0 -> c <> 0 -> get_transformer_temporal c n = Ok (built_tt c n).
Proof.
  intros Hc H0. unfold get_transformer_temporal, TransformerTemporal_init, GroupNormAD_init.
  rewrite Hc. cbn [Nat.eqb rbind].
  assert (H8 : 8 <= c).
  { pose proof (Nat.div_mod_eq c 32) as Hdm. rewrite Hc in Hdm.
    destruct (c / 32) as [| q]; lia. }
  rewrite (rrepeat_ok 1 (built_block_ok n H8)). reflexivity.
Qed.

Lemma get_transformer_temporal_built (c n : nat) (t : TransformerTemporal) :
  get_transformer_temporal c n = Ok t ->
  c mod 32 = 0 /\ c <> 0 /\ t = built_tt c n.
Proof.
  intros H.
  assert (Hc : c mod 32 = 0).
  { unfold get_transformer_temporal, TransformerTemporal_init, GroupNormAD_init in H.
    destruct (Nat.eqb_spec (c mod 32) 0) as [Hc | Hc];
      [exact Hc | discriminate H]. }
  assert (H0 : c <> 0).
  { intros ->. vm_compute in H. discriminate H. }
  rewrite get_transformer_temporal_ok in H by assumption.
  injection H as <-. repeat split; assumption.
Qed.

(** Without channels there is no inner dimension to divide by, and a
    channel count that 32 does not divide is refused by the group norm. *)
Example get_transformer_temporal_examples :
  get_transformer_temporal 0 24 = Raise ZeroDivisionError
  /\ get_transformer_temporal 16 24 = Raise ValueError
  /\ get_transformer_temporal 320 24 = Ok (built_tt 320 24).
Proof. repeat split; vm_compute; reflexivity. Qed.

(** A call that names the parameter [block_type] builds the module. *)
Lemma module_init_ok (b : BlockType) (c n : nat) :
  c mod 32 = 0 -> c <> 0 ->
  HotShotXLMotionModule_init c [("block_type", VBlockType b); ("max_length", VInt n)]
  = Ok (built_module b n c).
Proof.
  intros Hc H0. unfold HotShotXLMotionModule_init. cbn -[get_transformer_temporal Nat.modulo Nat.div].
  rewrite get_transformer_temporal_ok by assumption.
  destruct b; reflexivity.
Qed.

(** The call of line 73 names a parameter that the constructor does not
    have. *)
Lemma module_init_wrong_keyword (c n : nat) :
  HotShotXLMotionModule_init c [("BlockType", VBlockType MID); ("max_length", VInt n)]
  = Raise (TypeError (unexpected_keyword_msg "BlockType")).
Proof. reflexivity. Qed.

(** The log and the outcome of a construction, by what the two validators
    and the mid-block check find. *)
Lemma construction_cases sd hash name loras :
  HotShotXLMotionWrapper_init sd hash name loras [] =
  match get_hsxl_temporal_position_encoding_max_len sd name with
  | Raise e => ([MaxLenLookup], Raise e)
  | Ok n =>
      match validate_hsxl_block_count sd name with
      | Raise e => ([MaxLenLookup; BlockCountValidation], Raise e)
      | Ok _ =>
          (built_events n,
           if has_mid_block sd
           then Raise (TypeError (unexpected_keyword_msg "BlockType"))
           else Ok (built_wrapper n hash name loras))
      end
  end.
Proof.
  unfold HotShotXLMotionWrapper_init.
  destruct (get_hsxl_temporal_position_encoding_max_len sd name) as [n | e]; [| reflexivity].
  destruct (validate_hsxl_block_count sd name) as [[] | e]; [| reflexivity].
  unfold mbind at 1 2 3 4; unfold emit at 1 2, lift at 1 2; cbn [app].
  unfold mmap, new_module, mbind, lift.
  rewrite !module_init_ok by (reflexivity || discriminate).
  rewrite module_init_wrong_keyword.
  destruct (has_mid_block sd); reflexivity.
Qed.

Lemma outcome_cases sd hash name loras :
  outcome (HotShotXLMotionWrapper_init sd hash name loras) =
  match get_hsxl_temporal_position_encoding_max_len sd name with
  | Raise e => Raise e
  | Ok n =>
      match validate_hsxl_block_count sd name with
      | Raise e => Raise e
      | Ok _ =>
          if has_mid_block sd
          then Raise (TypeError (unexpected_keyword_msg "BlockType"))
          else Ok (built_wrapper n hash name loras)
      end
  end.
Proof.
  unfold outcome. rewrite construction_cases.
  destruct (get_hsxl_temporal_position_encoding_max_len sd name); [| reflexivity].
  destruct (validate_hsxl_block_count sd name); reflexivity.
Qed.

Lemma events_cases sd hash name loras :
  events (HotShotXLMotionWrapper_init sd hash name loras) =
  match get_hsxl_temporal_position_encoding_max_len sd name with
  | Raise e => [MaxLenLookup]
  | Ok n =>
      match validate_hsxl_block_count sd name with
      | Raise e => [MaxLenLookup; BlockCountValidation]
      | Ok _ => built_events n
      end
  end.
Proof.
  unfold events. rewrite construction_cases.
  destruct (get_hsxl_temporal_position_encoding_max_len sd name); [| reflexivity].
  destruct (validate_hsxl_block_count sd name); reflexivity.
Qed.

(** A wrapper is constructed only from a dictionary that passes both
    validators and has no temporal mid-block key; it is [built_wrapper]. *)
Lemma constructed_wrapper sd hash name loras w :
  outcome (HotShotXLMotionWrapper_init sd hash name loras) = Ok w ->
  exists n,
    get_hsxl_temporal_position_encoding_max_len sd name = Ok n
    /\ validate_hsxl_block_count sd name = Ok tt
    /\ has_mid_block sd = false
    /\ w = built_wrapper n hash name loras.
Proof.
  rewrite outcome_cases.
  destruct (get_hsxl_temporal_position_encoding_max_len sd name) as [n |];
    [| discriminate].
  destruct (validate_hsxl_block_count sd name) as [[] |]; [| discriminate].
  destruct (has_mid_block sd); [discriminate |].
  intros H. injection H as <-. exists n. repeat split.
Qed.

(* ================================================================== *)
(** * The validators *)


Lemma max_len_loop_first_key (d : StateDict) (ks : list string)
  (mm_type key : string) :
  find (fun k => PyStr.endswith k pos_encoder_suffix) ks = Some key ->
  max_len_loop d ks mm_type = (t <- getitem d key ;; size t 1).
Proof.
  induction ks as [| k ks IH]; simpl; intros Hfind.
  - discriminate Hfind.
  - destruct (PyStr.endswith k pos_encoder_suffix).
    + injection Hfind as ->. reflexivity.
    + apply IH. exact Hfind.
Qed.

Lemma getitem_in (d : StateDict) (key : string) (t : Tensor) :
  NoDup (keys d) -> In (key, t) d -> getitem d key = Ok t.
Proof.
  induction d as [| [k t'] d IH]; simpl; intros Hnd Hin.
  - contradiction.
  - inversion Hnd as [| ? ? Hnotin Hnd']; subst.
    destruct Hin as [Heq | Hin].
    + injection Heq as -> ->. rewrite String.eqb_refl. reflexivity.
    + destruct (String.eqb_spec k key) as [-> | Hne].
      * exfalso. apply Hnotin. unfold keys.
        change key with (fst (key, t)). apply in_map. exact Hin.
      * apply IH; assumption.
Qed.

(** When every marked key has a second segment, the loop does not raise
    and ends with the biggest block number read. *)
Lemma block_count_loop (ks : list string) (b : Z) :
  marked_keys_have_second_segment ks ->
  rfold block_count_step ks b
  = Ok (fold_left (fun biggest key =>
               match block_number key with
               | Some n => if (n >? biggest)%Z then n else biggest
               | None => biggest
               end) ks b).
Proof.
  revert b. induction ks as [| key ks IH]; intros b Hseg; simpl.
  - reflexivity.
  - assert (Hks : marked_keys_have_second_segment ks).
    { intros k Hk. apply Hseg. right. exact Hk. }
    specialize (Hseg key (or_introl eq_refl)).
    unfold block_count_step, block_number, second_segment in *.
    destruct (PyStr.contains down_blocks_marker key).
    + destruct (nth_error (PyStr.split "." key) 1) as [seg |].
      * destruct (PyStr.int seg) as [n |]; simpl; apply IH; exact Hks.
      * exfalso. apply Hseg; reflexivity.
    + simpl. apply IH. exact Hks.
Qed.

(** The lookup returns the second dimension of the tensor of the first
    key that ends in the suffix. *)
Lemma max_len_of_first_key (sd : StateDict) (mm_type key : string)
  (t : Tensor) (d0 n : nat) (rest : list nat) :
  NoDup (keys sd) ->
  find (fun k => PyStr.endswith k pos_encoder_suffix) (keys sd) = Some key ->
  In (key, t) sd ->
  shape t = d0 :: n :: rest ->
  get_hsxl_temporal_position_encoding_max_len sd mm_type = Ok n.
Proof.
  intros Hnd Hfind Hin Hshape.
  unfold get_hsxl_temporal_position_encoding_max_len.
  erewrite max_len_loop_first_key by exact Hfind.
  rewrite getitem_in with (t := t) by assumption. unfold rbind, size.
  rewrite Hshape. reflexivity.
Qed.

Lemma validate_by_biggest (sd : StateDict) (mm_type : string) :
  marked_keys_have_second_segment (keys sd) ->
  validate_hsxl_block_count sd mm_type
  = if (biggest_block_number (keys sd) =? 2)%Z then Ok tt
    else Raise (MotionCompatibilityError
                  (block_count_msg (biggest_block_number (keys sd)) mm_type)).
Proof.
  intros Hseg. unfold validate_hsxl_block_count.
  rewrite block_count_loop by exact Hseg. reflexivity.
Qed.

(** ** What the validators raise *)

Lemma getitem_key (d : StateDict) (key : string) :
  In key (keys d) -> exists t, getitem d key = Ok t.
Proof.
  induction d as [| [k t] d IH]; simpl; intros Hin.
  - contradiction.
  - destruct (String.eqb_spec k key) as [-> | Hne].
    + exists t. reflexivity.
    + destruct Hin as [Heq | Hin]; [contradiction | apply IH; exact Hin].
Qed.

Lemma max_len_loop_raises (d : StateDict) (ks : list string)
  (mm_type : string) (e : exn) :
  incl ks (keys d) ->
  max_len_loop d ks mm_type = Raise e ->
  e = MotionCompatibilityError (no_pos_encoder_msg mm_type) \/ e = IndexError.
Proof.
  induction ks as [| key ks IH]; simpl; intros Hincl Hraise.
  - injection Hraise as <-. left. reflexivity.
  - destruct (PyStr.endswith key pos_encoder_suffix).
    + destruct (getitem_key d key) as [t Ht]; [apply Hincl; left; reflexivity |].
      rewrite Ht in Hraise. unfold rbind, size in Hraise.
      destruct (nth_error (shape t) 1); [discriminate |].
      injection Hraise as <-. right. reflexivity.
    + apply IH; [| exact Hraise].
      intros k Hk. apply Hincl. right. exact Hk.
Qed.

Lemma block_count_loop_raises (ks : list string) (b : Z) (e : exn) :
  rfold block_count_step ks b = Raise e -> e = IndexError.
Proof.
  revert b. induction ks as [| key ks IH]; simpl; intros b Hraise.
  - discriminate.
  - unfold block_count_step at 1 in Hraise.
    destruct (PyStr.contains down_blocks_marker key).
    + destruct (nth_error (PyStr.split "." key) 1) as [seg |].
      * destruct (PyStr.int seg); simpl in Hraise; apply IH in Hraise; exact Hraise.
      * simpl in Hraise. injection Hraise as <-. reflexivity.
    + simpl in Hraise. apply IH in Hraise. exact Hraise.
Qed.

(** ** Keys of the conventional form [down_blocks.<i>.<rest>] *)

Lemma startswith_app (pre s : string) :
  PyStr.startswith s pre = true -> exists rest, s = (pre ++ rest)%string.
Proof.
  revert s. induction pre as [| a pre IH]; intros s H.
  - exists s. reflexivity.
  - destruct s as [| b s]; simpl in H; [discriminate |].
    apply andb_true_iff in H. destruct H as [Hab Hs].
    apply Ascii.eqb_eq in Hab. subst b.
    destruct (IH s Hs) as [rest ->]. exists rest. reflexivity.
Qed.

Lemma nth_error_1_cons {A} (a : A) (l : list A) :
  nth_error (a :: l) 1 = hd_error l.
Proof. destruct l; reflexivity. Qed.

(** On a key that starts with [down_blocks.] the segment that follows the
    marker is the second segment: there the words of the spec and the code
    read the same index. *)
Lemma spec_index_of_conventional_key (key : string) :
  PyStr.startswith key "down_blocks." = true ->
  spec_down_index key = block_number key.
Proof.
  intros H. destruct (startswith_app _ _ H) as [rest ->].
  unfold spec_down_index, block_number, second_segment.
  change (PyStr.split "." ("down_blocks." ++ rest)%string)
    with ("down_blocks" :: PyStr.split "." rest).
  rewrite nth_error_1_cons. reflexivity.
Qed.

(** ** Examples *)

Example split_example :
  PyStr.split "." "down_blocks.2.temporal_attentions.0.proj_in.weight"
  = ["down_blocks"; "2"; "temporal_attentions"; "0"; "proj_in"; "weight"].
Proof. reflexivity. Qed.

Example int_examples :
  PyStr.int "2" = Some 2%Z /\ PyStr.int " +1_0 " = Some 10%Z /\
  PyStr.int "-3" = Some (-3)%Z /\ PyStr.int "down_blocks" = None /\
  PyStr.int "" = None /\ PyStr.int "1__0" = None /\ PyStr.int "2_" = None.
Proof. repeat split; reflexivity. Qed.

(** The separators 0x1c-0x1f are no blanks for [int], the no-break space
    is one, and a text of more than 4300 digits is refused. *)
Example int_blanks_and_limit :
  PyStr.int (String (ascii_of_nat 28) "3") = None
  /\ PyStr.int (String (ascii_of_nat 31) "2") = None
  /\ PyStr.int (String (ascii_of_nat 160) "3") = Some 3%Z
  /\ PyStr.int (String (ascii_of_nat 9) "3") = Some 3%Z
  /\ PyStr.int (string_of_list_ascii (repeat "0"%char 4300)) = Some 0%Z
  /\ PyStr.int (string_of_list_ascii (repeat "0"%char 4301)) = None.
Proof. repeat split; vm_compute; reflexivity. Qed.

(* ================================================================== *)
(** * Properties of construction *)

(** C1, at a dictionary that passes both validators and has a temporal
    mid-block key: construction does not give a wrapper of version
    "HSXL v2", it raises a [TypeError], because line 73 passes the block
    type under the keyword [BlockType], which is no parameter of
    [HotShotXLMotionModule.__init__]. *)
Theorem mid_block_construction_raises :
  get_hsxl_temporal_position_encoding_max_len sd_v2 "mm.ckpt" = Ok 24
  /\ validate_hsxl_block_count sd_v2 "mm.ckpt" = Ok tt
  /\ has_mid_block sd_v2 = true
  /\ outcome (HotShotXLMotionWrapper_init sd_v2 "hash" "mm.ckpt" None)
     = Raise (TypeError
         "HotShotXLMotionModule.__init__() got an unexpected keyword argument 'BlockType'").
Proof. repeat split; vm_compute; reflexivity. Qed.

(** The same for every dictionary that passes both validators and has a
    temporal mid-block key; without such a key construction gives the
    wrapper of version "HSXL v1" with no mid block. *)
Lemma construction_by_mid_block sd hash name loras n :
  get_hsxl_temporal_position_encoding_max_len sd name = Ok n ->
  validate_hsxl_block_count sd name = Ok tt ->
  (has_mid_block sd = true ->
   outcome (HotShotXLMotionWrapper_init sd hash name loras)
   = Raise (TypeError (unexpected_keyword_msg "BlockType")))
  /\
  (has_mid_block sd = false ->
   exists w,
     outcome (HotShotXLMotionWrapper_init sd hash name loras) = Ok w
     /\ mid_block w = None /\ version w = "HSXL v1").
Proof.
  intros Hlen Hval. rewrite outcome_cases, Hlen, Hval.
  split; intros ->.
  - reflexivity.
  - eexists. split; [reflexivity | split; reflexivity].
Qed.

(** C2, at two dictionaries with a valid positional-encoding key.  With the
    key [down_blocks], [key.split(".")[1]] raises an [IndexError], which the
    handler for [ValueError] does not catch; with a temporal mid-block key,
    the call of line 73 raises a [TypeError].  Both leave construction, and
    neither is a [MotionCompatibilityError]. *)
Theorem other_exceptions_leave_construction :
  get_hsxl_temporal_position_encoding_max_len sd_bare_marker "mm.ckpt" = Ok 24
  /\ outcome (HotShotXLMotionWrapper_init sd_bare_marker "hash" "mm.ckpt" None)
     = Raise IndexError
  /\ outcome (HotShotXLMotionWrapper_init sd_v2 "hash" "mm.ckpt" None)
     = Raise (TypeError (unexpected_keyword_msg "BlockType")).
Proof. repeat split; vm_compute; reflexivity. Qed.

(** The exceptions that leave construction: the two
    [MotionCompatibilityError]s of the validators, the [IndexError] of a
    marked key without a second segment or of a positional-encoding tensor
    without a second dimension, and the [TypeError] of the mid-block call. *)
Lemma construction_raises sd hash name loras e :
  outcome (HotShotXLMotionWrapper_init sd hash name loras) = Raise e ->
  e = MotionCompatibilityError (no_pos_encoder_msg name)
  \/ (exists b, e = MotionCompatibilityError (block_count_msg b name))
  \/ e = IndexError
  \/ e = TypeError (unexpected_keyword_msg "BlockType").
Proof.
  rewrite outcome_cases.
  destruct (get_hsxl_temporal_position_encoding_max_len sd name) as [n | e0] eqn:Hlen.
  - destruct (validate_hsxl_block_count sd name) as [[] | e1] eqn:Hval.
    + destruct (has_mid_block sd); [| discriminate].
      intros H. injection H as <-. do 3 right. reflexivity.
    + intros H. injection H as ->. right.
      unfold validate_hsxl_block_count in Hval.
      destruct (rfold block_count_step (keys sd) 0%Z) as [b | e2] eqn:Hloop.
      * simpl in Hval. destruct (b =? 2)%Z; [discriminate |].
        injection Hval as <-. left. exists b. reflexivity.
      * simpl in Hval. injection Hval as <-.
        apply block_count_loop_raises in Hloop. right. left. exact Hloop.
  - intros H. injection H as ->.
    apply max_len_loop_raises in Hlen; [| apply incl_refl].
    destruct Hlen as [-> | ->]; [left | right; right; left]; reflexivity.
Qed.

(** C4 as stated fails: in [sd_marker_third] the segment that follows the
    marker is 1, so the maximum down-level index is 1 and not 2, and a
    valid positional-encoding key is present; the code reads the second
    segment of the key, 2, and construction succeeds. *)
Lemma marker_third_accepted :
  get_hsxl_temporal_position_encoding_max_len sd_marker_third "mm.ckpt" = Ok 24
  /\ spec_max_down_index (keys sd_marker_third) = Some 1%Z
  /\ biggest_block_number (keys sd_marker_third) = 2%Z
  /\ outcome (HotShotXLMotionWrapper_init sd_marker_third "hash" "mm.ckpt" None)
     = Ok (built_wrapper 24 "hash" "mm.ckpt" None).
Proof. repeat split; vm_compute; reflexivity. Qed.

(** C4, amended: the validator reads the second dot-separated segment of
    every key that contains [down_blocks], skips segments that are no
    integer and keeps the biggest number read, starting from 0.  For a
    dictionary in which every such key has a second segment and that
    biggest number is not 2, validation raises [MotionCompatibilityError]
    and construction fails: with [MotionCompatibilityError] whenever the
    lookup of the maximum length returned, as it does when the first
    positional-encoding key holds a tensor of two or more dimensions, or
    found no key, and with [IndexError] otherwise. *)
Theorem block_count_mismatch_rejected sd hash name loras :
  marked_keys_have_second_segment (keys sd) ->
  biggest_block_number (keys sd) <> 2%Z ->
  validate_hsxl_block_count sd name
  = Raise (MotionCompatibilityError
             (block_count_msg (biggest_block_number (keys sd)) name))
  /\ (forall n,
        get_hsxl_temporal_position_encoding_max_len sd name = Ok n ->
        outcome (HotShotXLMotionWrapper_init sd hash name loras)
        = Raise (MotionCompatibilityError
                   (block_count_msg (biggest_block_number (keys sd)) name)))
  /\ (forall key t d0 n rest,
        NoDup (keys sd) ->
        find (fun k => PyStr.endswith k pos_encoder_suffix) (keys sd) = Some key ->
        In (key, t) sd ->
        shape t = d0 :: n :: rest ->
        outcome (HotShotXLMotionWrapper_init sd hash name loras)
        = Raise (MotionCompatibilityError
                   (block_count_msg (biggest_block_number (keys sd)) name)))
  /\ ((exists msg,
         outcome (HotShotXLMotionWrapper_init sd hash name loras)
         = Raise (MotionCompatibilityError msg))
      \/ (get_hsxl_temporal_position_encoding_max_len sd name = Raise IndexError
          /\ outcome (HotShotXLMotionWrapper_init sd hash name loras)
             = Raise IndexError)).
Proof.
  intros Hseg Hbig.
  assert (Hval : validate_hsxl_block_count sd name
                 = Raise (MotionCompatibilityError
                            (block_count_msg (biggest_block_number (keys sd)) name))).
  { rewrite validate_by_biggest by exact Hseg.
    destruct (Z.eqb_spec (biggest_block_number (keys sd)) 2) as [Heq | _];
      [contradiction | reflexivity]. }
  assert (Hret : forall n,
             get_hsxl_temporal_position_encoding_max_len sd name = Ok n ->
             outcome (HotShotXLMotionWrapper_init sd hash name loras)
             = Raise (MotionCompatibilityError
                        (block_count_msg (biggest_block_number (keys sd)) name))).
  { intros n Hlen. rewrite outcome_cases, Hlen, Hval. reflexivity. }
  split; [exact Hval | split; [exact Hret | split]].
  - intros key t d0 n rest Hnd Hfind Hin Hshape.
    apply (Hret n).
    apply max_len_of_first_key with (key := key) (t := t) (d0 := d0) (rest := rest);
      assumption.
  - destruct (get_hsxl_temporal_position_encoding_max_len sd name) as [n | e]
      eqn:Hlen.
    + left. eexists. apply (Hret n). reflexivity.
    + rewrite outcome_cases, Hlen.
      apply max_len_loop_raises in Hlen; [| apply incl_refl].
      destruct Hlen as [-> | ->].
      * left. eexists. reflexivity.
      * right. split; reflexivity.
Qed.

(** A dictionary with the down levels 0 and 1 only. *)
Lemma block_count_mismatch_rejected_witness :
  biggest_block_number (keys sd_two_levels) = 1%Z
  /\ validate_hsxl_block_count sd_two_levels "mm.ckpt"
     = Raise (MotionCompatibilityError
         "Expected biggest down_block to be 2, but was 1 - mm.ckpt is not a valid HotShotXL motion module!")
  /\ outcome (HotShotXLMotionWrapper_init sd_two_levels "hash" "mm.ckpt" None)
     = Raise (MotionCompatibilityError
         "Expected biggest down_block to be 2, but was 1 - mm.ckpt is not a valid HotShotXL motion module!").
Proof.
  assert (Hseg : marked_keys_have_second_segment (keys sd_two_levels)).
  { intros key Hin _. simpl in Hin.
    destruct Hin as [<- | [<- | [<- | []]]]; vm_compute; discriminate. }
  assert (Hbig : biggest_block_number (keys sd_two_levels) <> 2%Z).
  { vm_compute. discriminate. }
  split; [reflexivity | split].
  - exact (proj1 (@block_count_mismatch_rejected sd_two_levels "hash" "mm.ckpt"
                    None Hseg Hbig)).
  - apply (proj1 (proj2 (proj2 (@block_count_mismatch_rejected sd_two_levels
                    "hash" "mm.ckpt" None Hseg Hbig)))
             pos_key (mkTensor [1; 24; 320]) 1 24 [320]).
    + repeat constructor; simpl; intuition discriminate.
    + reflexivity.
    + simpl. right. left. reflexivity.
    + reflexivity.
Defined.




(** C6 as stated fails: in the construction from [sd_v1] a module is
    instantiated before the mid-block check has run. *)
Lemma mid_block_check_after_modules :
  exists pre m post,
    events (HotShotXLMotionWrapper_init sd_v1 "hash" "mm.ckpt" None)
    = pre ++ ModuleInstantiated m :: post
    /\ ~ In MidBlockCheck pre
    /\ In MidBlockCheck post.
Proof.
  exists [MaxLenLookup; BlockCountValidation], (built_module DOWN 24 320),
    (map ModuleInstantiated
       [built_module DOWN 24 640; built_module DOWN 24 1280;
        built_module UP 24 1280; built_module UP 24 640; built_module UP 24 320]
     ++ [MidBlockCheck]).
  split; [| split].
  - vm_compute. reflexivity.
  - simpl. intros [H | [H | []]]; discriminate H.
  - simpl. do 5 right. left. reflexivity.
Qed.

(** C6, amended: the max-length lookup and the block-count validation
    have run, in that order, before any module is instantiated, and nothing
    but module instantiations lies between them and that module; the
    mid-block check runs after the three down-level and the three up-level
    modules have been instantiated. *)
Theorem validators_precede_modules sd hash name loras pre post :
  (forall m,
     events (HotShotXLMotionWrapper_init sd hash name loras)
     = pre ++ ModuleInstantiated m :: post ->
     exists built,
       pre = MaxLenLookup :: BlockCountValidation :: map ModuleInstantiated built)
  /\
  (events (HotShotXLMotionWrapper_init sd hash name loras)
   = pre ++ MidBlockCheck :: post ->
   exists n,
     get_hsxl_temporal_position_encoding_max_len sd name = Ok n
     /\ pre = [MaxLenLookup; BlockCountValidation]
              ++ map ModuleInstantiated (built_down n ++ built_up n)).
Proof.
  rewrite events_cases.
  destruct (get_hsxl_temporal_position_encoding_max_len sd name) as [n | e].
  2:{ split; [intros m H | intros H]; destruct_prefix pre H. }
  destruct (validate_hsxl_block_count sd name) as [[] | e].
  2:{ split; [intros m H | intros H]; destruct_prefix pre H. }
  unfold built_events, built_down, built_up. cbn [map app].
  split; [intros m H | intros H].
  - destruct_prefix pre H.
    all: match goal with
         | |- exists built, ?a :: ?b :: ?l = _ => idtac
         end.
    + exists []. reflexivity.
    + eexists [_]. reflexivity.
    + eexists [_; _]. reflexivity.
    + eexists [_; _; _]. reflexivity.
    + eexists [_; _; _; _]. reflexivity.
    + eexists [_; _; _; _; _]. reflexivity.
  - destruct_prefix pre H. exists n. split; reflexivity.
Qed.

Lemma validators_precede_modules_witness :
  events (HotShotXLMotionWrapper_init sd_v1 "hash" "mm.ckpt" None)
  = [MaxLenLookup; BlockCountValidation]
    ++ map ModuleInstantiated (built_down 24 ++ built_up 24)
    ++ [MidBlockCheck]
  /\
  (exists built,
     [MaxLenLookup; BlockCountValidation;
      ModuleInstantiated (built_module DOWN 24 320)]
     = MaxLenLookup :: BlockCountValidation :: map ModuleInstantiated built)
  /\
  (exists n,
     get_hsxl_temporal_position_encoding_max_len sd_v1 "mm.ckpt" = Ok n
     /\ [MaxLenLookup; BlockCountValidation]
        ++ map ModuleInstantiated (built_down 24 ++ built_up 24)
        = [MaxLenLookup; BlockCountValidation]
          ++ map ModuleInstantiated (built_down n ++ built_up n)).
Proof.
  split; [vm_compute; reflexivity | split].
  - apply (proj1 (@validators_precede_modules sd_v1 "hash" "mm.ckpt" None
             [MaxLenLookup; BlockCountValidation;
              ModuleInstantiated (built_module DOWN 24 320)]
             (map ModuleInstantiated
                [built_module DOWN 24 1280;
                 built_module UP 24 1280; built_module UP 24 640;
                 built_module UP 24 320]
              ++ [MidBlockCheck]))
             (built_module DOWN 24 640)).
    vm_compute. reflexivity.
  - apply (proj2 (@validators_precede_modules sd_v1 "hash" "mm.ckpt" None
             ([MaxLenLookup; BlockCountValidation]
              ++ map ModuleInstantiated (built_down 24 ++ built_up 24)) [])).
    vm_compute. reflexivity.
Defined.

(** C8: [has_loras] of a constructed wrapper is true exactly when a LoRA
    list was supplied, the empty list included, and false exactly when
    none was. *)
Theorem has_loras_iff_supplied sd hash name loras w :
  outcome (HotShotXLMotionWrapper_init sd hash name loras) = Ok w ->
  (has_loras w = true <-> loras <> None)
  /\ (has_loras w = false <-> loras = None)
  /\ (loras = Some [] -> has_loras w = true).
Proof.
  intros Hw. apply constructed_wrapper in Hw.
  destruct Hw as (n & _ & _ & _ & ->).
  unfold has_loras, built_wrapper; simpl.
  destruct loras as [l |]; simpl; repeat split; intros; congruence.
Qed.

Lemma has_loras_iff_supplied_witness :
  has_loras (built_wrapper 24 "hash" "mm.ckpt" (Some [])) = true.
Proof.
  apply (@has_loras_iff_supplied sd_v1 "hash" "mm.ckpt" (Some [])
           (built_wrapper 24 "hash" "mm.ckpt" (Some []))).
  - vm_compute. reflexivity.
  - reflexivity.
Defined.

(* ================================================================== *)
(** * Setters *)

(** C7: a multiplier that is [None] or close to 1.0 leaves the scale at
    [None], the state in which the constructor leaves it, so that a unit
    whose scale was never set is unchanged; any other multiplier becomes
    the scale. *)
Theorem scale_multiplier_cases (self : TemporalAttention) (multiplier : option float) :
  ((multiplier = None \/ exists m, multiplier = Some m /\ isclose m 1 = true) ->
   scale (TemporalAttention_set_scale_multiplier multiplier self) = None
   /\ (scale self = None ->
       TemporalAttention_set_scale_multiplier multiplier self = self))
  /\
  (forall m, multiplier = Some m -> isclose m 1 = false ->
     scale (TemporalAttention_set_scale_multiplier multiplier self) = Some m)
  /\
  (forall max_length query_dim context_dim heads dim_head dropout ta,
     TemporalAttention_init max_length query_dim context_dim heads
       dim_head dropout = Ok ta ->
     scale ta = None).
Proof.
  split; [| split].
  - intros Hdefault.
    assert (Hset : TemporalAttention_set_scale_multiplier multiplier self
                   = with_scale None self).
    { destruct Hdefault as [-> | (m & -> & Hclose)]; simpl.
      - reflexivity.
      - rewrite Hclose. reflexivity. }
    rewrite Hset. split; [reflexivity |].
    intros Hnone. destruct self; simpl in *. subst. reflexivity.
  - intros m -> Hfar. simpl. rewrite Hfar. reflexivity.
  - intros max_length query_dim context_dim heads dim_head dropout ta Hta.
    apply TemporalAttention_init_inv in Hta. subst ta. reflexivity.
Qed.

Lemma scale_multiplier_cases_witness :
  isclose 1 1 = true
  /\ isclose 0x1.000000006df38p+0 1 = true
  /\ TemporalAttention_init 24 320 None 8 40 0%float
     = Ok (built_attention 320 24)
  /\ scale (built_attention 320 24) = None
  /\ scale (TemporalAttention_set_scale_multiplier (Some 1%float)
              (built_attention 320 24)) = None
  /\ TemporalAttention_set_scale_multiplier (Some 0x1.000000006df38p+0%float)
       (built_attention 320 24)
     = built_attention 320 24
  /\ scale (TemporalAttention_set_scale_multiplier (Some 1.5%float)
              (built_attention 320 24))
     = Some 1.5%float.
Proof.
  split; [reflexivity | split; [reflexivity | split; [reflexivity |]]].
  split; [| split; [| split]].
  - apply (proj2 (proj2 (@scale_multiplier_cases (built_attention 320 24) None))
             24 320 None 8 40 0%float).
    reflexivity.
  - apply (proj1 (@scale_multiplier_cases (built_attention 320 24)
                    (Some 1%float))).
    right. exists 1%float. split; reflexivity.
  - apply (proj1 (@scale_multiplier_cases (built_attention 320 24)
                    (Some 0x1.000000006df38p+0%float))).
    + right. exists 0x1.000000006df38p+0%float. split; reflexivity.
    + reflexivity.
  - apply (proj1 (proj2 (@scale_multiplier_cases (built_attention 320 24)
                    (Some 1.5%float)))).
    + reflexivity.
    + reflexivity.
Defined.

(** ** The setters reach every [TransformerTemporal] and keep the buffers *)

Lemma set_scale_keeps_pos_encoder (m : option float) (ta : TemporalAttention) :
  pos_encoder (TemporalAttention_set_scale_multiplier m ta) = pos_encoder ta.
Proof.
  unfold TemporalAttention_set_scale_multiplier.
  destruct m as [x |]; [destruct (isclose x 1) |]; reflexivity.
Qed.

Lemma tt_setter_keeps_pos_encoders (t : TransformerTemporal) (c : setter_call) :
  map pos_encoder (tt_attentions (call_tt_setter t c))
  = map pos_encoder (tt_attentions t).
Proof.
  destruct c; try reflexivity.
  unfold tt_attentions. simpl.
  induction (transformer_blocks t) as [| b bs IH]; simpl.
  - reflexivity.
  - rewrite !map_app, IH. f_equal.
    rewrite map_map. apply map_ext. intros ta. apply set_scale_keeps_pos_encoder.
Qed.

Lemma flat_map_for_each_tt (g : TransformerTemporal -> TransformerTemporal)
  (ms : list HotShotXLMotionModule) :
  flat_map temporal_attentions (map (for_each_tt g) ms)
  = map g (flat_map temporal_attentions ms).
Proof.
  induction ms as [| m ms IH]; simpl.
  - reflexivity.
  - rewrite map_app, IH. reflexivity.
Qed.

Lemma wrapper_modules_for_each_block
  (f : HotShotXLMotionModule -> HotShotXLMotionModule) (v : nat)
  (w : HotShotXLMotionWrapper) :
  wrapper_modules (for_each_block f v w) = map f (wrapper_modules w).
Proof.
  unfold wrapper_modules. simpl. rewrite !map_app.
  destruct (mid_block w); reflexivity.
Qed.

(** A setter of the wrapper is the same setter on each
    [TransformerTemporal] of the tree. *)
Lemma wrapper_tts_call_setter (w : HotShotXLMotionWrapper) (c : setter_call) :
  wrapper_tts (call_setter w c)
  = map (fun t => call_tt_setter t c) (wrapper_tts w).
Proof.
  unfold wrapper_tts.
  destruct c; simpl;
    unfold set_video_length, set_scale_multiplier, set_masks, set_sub_idxs,
           reset_temp_vars;
    rewrite wrapper_modules_for_each_block, flat_map_for_each_tt; reflexivity.
Qed.

Lemma call_setter_keeps_pos_encoders (w : HotShotXLMotionWrapper) (c : setter_call) :
  wrapper_pos_encoders (call_setter w c) = wrapper_pos_encoders w.
Proof.
  unfold wrapper_pos_encoders, wrapper_attentions.
  rewrite wrapper_tts_call_setter.
  induction (wrapper_tts w) as [| t ts IH]; simpl.
  - reflexivity.
  - rewrite !map_app, IH, tt_setter_keeps_pos_encoders. reflexivity.
Qed.

Lemma call_setter_keeps_max_len (w : HotShotXLMotionWrapper) (c : setter_call) :
  encoding_max_len (call_setter w c) = encoding_max_len w.
Proof. destruct c; reflexivity. Qed.

Lemma setters_keep_max_len (calls : list setter_call) (w : HotShotXLMotionWrapper) :
  encoding_max_len (fold_left call_setter calls w) = encoding_max_len w
  /\ wrapper_pos_encoders (fold_left call_setter calls w) = wrapper_pos_encoders w.
Proof.
  revert w. induction calls as [| c calls IH]; intros w; simpl.
  - split; reflexivity.
  - destruct (IH (call_setter w c)) as [-> ->].
    split; [apply call_setter_keeps_max_len | apply call_setter_keeps_pos_encoders].
Qed.

Lemma built_wrapper_pos_encoders (n : nat) (hash name : string)
  (loras : option (list MotionLoRAInfo)) :
  Forall (sized_by n) (wrapper_pos_encoders (built_wrapper n hash name loras))
  /\ List.length (wrapper_pos_encoders (built_wrapper n hash name loras)) = 30.
Proof.
  split; [| reflexivity].
  unfold wrapper_pos_encoders, wrapper_attentions, wrapper_tts, wrapper_modules,
    built_wrapper, built_down, built_up, built_module, tt_attentions,
    built_tt, built_block, built_attention.
  cbn [map flat_map app repeat tt_count down_blocks up_blocks mid_block
       temporal_attentions transformer_blocks attention_blocks pos_encoder].
  repeat (constructor; [eexists; reflexivity |]). constructor.
Qed.

(** [set_scale_multiplier] of the wrapper calls the setter of every
    [TemporalAttention] of the tree. *)
Lemma wrapper_attentions_set_scale (m : option float) (w : HotShotXLMotionWrapper) :
  wrapper_attentions (set_scale_multiplier m w)
  = map (TemporalAttention_set_scale_multiplier m) (wrapper_attentions w).
Proof.
  unfold wrapper_attentions.
  change (set_scale_multiplier m w) with (call_setter w (SetScaleMultiplier m)).
  rewrite wrapper_tts_call_setter.
  induction (wrapper_tts w) as [| t ts IH]; cbn [map flat_map].
  - reflexivity.
  - rewrite map_app, IH. f_equal.
    unfold tt_attentions. cbn [call_tt_setter].
    unfold TransformerTemporal_set_scale_multiplier. cbn [transformer_blocks].
    induction (transformer_blocks t) as [| b bs IHb]; cbn [map flat_map].
    + reflexivity.
    + rewrite map_app, IHb. reflexivity.
Qed.

Lemma wrapper_modules_call_setter (w : HotShotXLMotionWrapper) (c : setter_call) :
  wrapper_modules (call_setter w c)
  = map (for_each_tt (fun t => call_tt_setter t c)) (wrapper_modules w).
Proof. destruct c; apply wrapper_modules_for_each_block. Qed.

Lemma module_setter_keeps_pos_encoders (m : HotShotXLMotionModule)
  (c : setter_call) :
  module_pos_encoders (for_each_tt (fun t => call_tt_setter t c) m)
  = module_pos_encoders m.
Proof.
  unfold module_pos_encoders, for_each_tt. cbn [temporal_attentions].
  induction (temporal_attentions m) as [| t ts IH]; cbn [map flat_map].
  - reflexivity.
  - rewrite !map_app, IH, tt_setter_keeps_pos_encoders. reflexivity.
Qed.

Lemma setters_keep_module_pos_encoders (calls : list setter_call)
  (w : HotShotXLMotionWrapper) :
  map module_pos_encoders (wrapper_modules (fold_left call_setter calls w))
  = map module_pos_encoders (wrapper_modules w).
Proof.
  revert w. induction calls as [| c calls IH]; intros w; simpl.
  - reflexivity.
  - rewrite IH, wrapper_modules_call_setter, map_map.
    apply map_ext. intros m. apply module_setter_keeps_pos_encoders.
Qed.

Lemma Forall2_by_image {A B K} (g : A -> B) (Q : K -> B -> Prop)
  (ks : list K) (ms ms' : list A) :
  map g ms = map g ms' ->
  Forall2 (fun k m => Q k (g m)) ks ms' ->
  Forall2 (fun k m => Q k (g m)) ks ms.
Proof.
  intros Hmap Hall. revert ms Hmap.
  induction Hall as [| k m' ks ms' Hk _ IH]; intros ms Hmap.
  - destruct ms; [constructor | discriminate Hmap].
  - destruct ms as [| m ms]; [discriminate Hmap |].
    simpl in Hmap. injection Hmap as Hm Hrest.
    constructor; [rewrite Hm; exact Hk | apply IH; exact Hrest].
Qed.

(** The six modules of a constructed wrapper are returned by the calls of
    lines 69 and 71 with the derived length; they hold 4 and 6 positional
    encoders, all of that length. *)
Lemma built_wrapper_modules (n : nat) (hash name : string)
  (loras : option (list MotionLoRAInfo)) :
  returned_by DOWN n [320; 640; 1280] (down_blocks (built_wrapper n hash name loras))
  /\ returned_by UP n [1280; 640; 320] (up_blocks (built_wrapper n hash name loras))
  /\ Forall2 (fun count pes => List.length pes = count /\ Forall (sized_by n) pes)
             [4; 4; 4; 6; 6; 6]
             (map module_pos_encoders
                (wrapper_modules (built_wrapper n hash name loras))).
Proof.
  split; [| split].
  - repeat constructor; apply module_init_ok; solve [reflexivity | discriminate].
  - repeat constructor; apply module_init_ok; solve [reflexivity | discriminate].
  - repeat constructor; eexists; reflexivity.
Qed.

(** C9: the length derived from the dictionary is the [max_length] of the
    six calls that return the modules of a constructed wrapper.  After any
    sequence of setter calls [encoding_max_len] is still that length, the
    three down modules hold 4 and the three up modules 6 positional
    encoders each, every one of these 30 buffers has that many positions,
    and the buffers are the ones built at construction. *)
Theorem max_len_constant sd hash name loras w (calls : list setter_call) :
  outcome (HotShotXLMotionWrapper_init sd hash name loras) = Ok w ->
  exists n,
    get_hsxl_temporal_position_encoding_max_len sd name = Ok n
    /\ returned_by DOWN n [320; 640; 1280] (down_blocks w)
    /\ returned_by UP n [1280; 640; 320] (up_blocks w)
    /\ mid_block w = None
    /\ encoding_max_len (fold_left call_setter calls w) = n
    /\ Forall2 (fun count pes =>
                  List.length pes = count /\ Forall (sized_by n) pes)
               [4; 4; 4; 6; 6; 6]
               (map module_pos_encoders
                  (wrapper_modules (fold_left call_setter calls w)))
    /\ List.length (wrapper_pos_encoders (fold_left call_setter calls w)) = 30
    /\ Forall (sized_by n)
              (wrapper_pos_encoders (fold_left call_setter calls w))
    /\ wrapper_pos_encoders (fold_left call_setter calls w)
       = wrapper_pos_encoders w.
Proof.
  intros Hw. apply constructed_wrapper in Hw.
  destruct Hw as (n & Hn & _ & _ & ->). exists n.
  destruct (built_wrapper_modules n hash name loras) as (Hdown & Hup & Hmods).
  destruct (built_wrapper_pos_encoders n hash name loras) as [Hsized Hcount].
  destruct (setters_keep_max_len calls (built_wrapper n hash name loras))
    as [Hlen Hpes].
  rewrite setters_keep_module_pos_encoders, Hlen, Hpes.
  repeat split; assumption.
Qed.

Lemma max_len_constant_witness :
  exists n,
    get_hsxl_temporal_position_encoding_max_len sd_v1 "mm.ckpt" = Ok n
    /\ returned_by DOWN n [320; 640; 1280]
         (down_blocks (built_wrapper 24 "hash" "mm.ckpt" None))
    /\ returned_by UP n [1280; 640; 320]
         (up_blocks (built_wrapper 24 "hash" "mm.ckpt" None))
    /\ mid_block (built_wrapper 24 "hash" "mm.ckpt" None) = None
    /\ encoding_max_len
         (fold_left call_setter
            [SetVideoLength 16 32; SetScaleMultiplier (Some 1.5%float);
             SetMasks (mkTensor [32; 64; 64]) 0.5%float 1%float;
             SetSubIdxs (Some [0; 1; 2]%Z); ResetTempVars]
            (built_wrapper 24 "hash" "mm.ckpt" None)) = n
    /\ Forall2 (fun count pes =>
                  List.length pes = count /\ Forall (sized_by n) pes)
               [4; 4; 4; 6; 6; 6]
               (map module_pos_encoders
                  (wrapper_modules
                     (fold_left call_setter
                        [SetVideoLength 16 32; SetScaleMultiplier (Some 1.5%float);
                         SetMasks (mkTensor [32; 64; 64]) 0.5%float 1%float;
                         SetSubIdxs (Some [0; 1; 2]%Z); ResetTempVars]
                        (built_wrapper 24 "hash" "mm.ckpt" None))))
    /\ List.length
         (wrapper_pos_encoders
            (fold_left call_setter
               [SetVideoLength 16 32; SetScaleMultiplier (Some 1.5%float);
                SetMasks (mkTensor [32; 64; 64]) 0.5%float 1%float;
                SetSubIdxs (Some [0; 1; 2]%Z); ResetTempVars]
               (built_wrapper 24 "hash" "mm.ckpt" None))) = 30
    /\ Forall (sized_by n)
         (wrapper_pos_encoders
            (fold_left call_setter
               [SetVideoLength 16 32; SetScaleMultiplier (Some 1.5%float);
                SetMasks (mkTensor [32; 64; 64]) 0.5%float 1%float;
                SetSubIdxs (Some [0; 1; 2]%Z); ResetTempVars]
               (built_wrapper 24 "hash" "mm.ckpt" None)))
    /\ wrapper_pos_encoders
         (fold_left call_setter
            [SetVideoLength 16 32; SetScaleMultiplier (Some 1.5%float);
             SetMasks (mkTensor [32; 64; 64]) 0.5%float 1%float;
             SetSubIdxs (Some [0; 1; 2]%Z); ResetTempVars]
            (built_wrapper 24 "hash" "mm.ckpt" None))
       = wrapper_pos_encoders (built_wrapper 24 "hash" "mm.ckpt" None).
Proof.
  apply (@max_len_constant sd_v1 "hash" "mm.ckpt" None
           (built_wrapper 24 "hash" "mm.ckpt" None)
           [SetVideoLength 16 32; SetScaleMultiplier (Some 1.5%float);
            SetMasks (mkTensor [32; 64; 64]) 0.5%float 1%float;
            SetSubIdxs (Some [0; 1; 2]%Z); ResetTempVars]).
  vm_compute. reflexivity.
Defined.

(** The [TransformerTemporal]s of a constructed wrapper come from
    [get_transformer_temporal] with the derived length. *)
Lemma wrapper_tts_built sd hash name loras w t :
  outcome (HotShotXLMotionWrapper_init sd hash name loras) = Ok w ->
  In t (wrapper_tts w) ->
  exists c, get_transformer_temporal c (encoding_max_len w) = Ok t.
Proof.
  intros Hw Hin. apply constructed_wrapper in Hw.
  destruct Hw as (n & _ & _ & _ & ->).
  cbn in Hin.
  repeat (destruct Hin as [<- | Hin];
          [eexists; apply get_transformer_temporal_ok;
           [reflexivity | discriminate] |]).
  contradiction.
Qed.

Lemma wrapper_tts_setters (calls : list setter_call) (w : HotShotXLMotionWrapper) :
  wrapper_tts (fold_left call_setter calls w)
  = map (fold_left call_tt_setter calls) (wrapper_tts w).
Proof.
  revert w. induction calls as [| c calls IH]; intros w; simpl.
  - symmetry. apply map_id.
  - rewrite IH, wrapper_tts_call_setter, map_map. reflexivity.
Qed.

Lemma set_scale_keeps_fit (c ml : nat) (m : option float) (ta : TemporalAttention) :
  attention_fits c ml ta ->
  attention_fits c ml (TemporalAttention_set_scale_multiplier m ta).
Proof.
  intros H. unfold TemporalAttention_set_scale_multiplier.
  destruct m as [x |]; [destruct (isclose x 1) |]; exact H.
Qed.

Lemma block_set_scale_keeps_fit (c ml : nat) (m : option float) (b : TransformerBlock) :
  block_fits c ml b -> block_fits c ml (TransformerBlock_set_scale_multiplier m b).
Proof.
  intros (Hcross & Hatt & Hrest). split; [exact Hcross | split; [| exact Hrest]].
  simpl. apply Forall_map. revert Hatt. apply Forall_impl.
  intros ta. apply set_scale_keeps_fit.
Qed.

Lemma tt_setter_keeps_fit (c inner ml : nat) (t : TransformerTemporal)
  (call : setter_call) :
  tt_fits c inner ml t -> tt_fits c inner ml (call_tt_setter t call).
Proof.
  intros (Hnorm & Hin & Hout & Hblocks).
  destruct call; simpl; repeat split; try assumption.
  simpl. apply Forall_map. revert Hblocks. apply Forall_impl.
  intros b. apply block_set_scale_keeps_fit.
Qed.

Lemma tt_setters_keep_fit (c inner ml : nat) (calls : list setter_call)
  (t : TransformerTemporal) :
  tt_fits c inner ml t -> tt_fits c inner ml (fold_left call_tt_setter calls t).
Proof.
  revert t. induction calls as [| call calls IH]; intros t Ht; simpl.
  - exact Ht.
  - apply IH. apply tt_setter_keeps_fit. exact Ht.
Qed.

Lemma built_tt_fits (c ml : nat) : tt_fits c (8 * (c / 8)) ml (built_tt c ml).
Proof.
  repeat split; simpl; repeat constructor.
Qed.

Lemma tt_setter_keeps_is_cross (t : TransformerTemporal) (c : setter_call) :
  map is_cross (transformer_blocks (call_tt_setter t c))
  = map is_cross (transformer_blocks t).
Proof.
  destruct c; simpl; try reflexivity.
  rewrite map_map. reflexivity.
Qed.

Lemma tt_setters_keep_is_cross (calls : list setter_call) (t : TransformerTemporal) :
  map is_cross (transformer_blocks (fold_left call_tt_setter calls t))
  = map is_cross (transformer_blocks t).
Proof.
  revert t. induction calls as [| c calls IH]; intros t; simpl.
  - reflexivity.
  - rewrite IH. apply tt_setter_keeps_is_cross.
Qed.

Lemma all_false_of_map (l : list TransformerBlock) :
  Forall (fun b => b = false) (map is_cross l) ->
  Forall (fun b => is_cross b = false) l.
Proof.
  induction l as [| b l IH]; simpl; intros H; inversion H; subst; constructor; auto.
Qed.

(* ================================================================== *)
(** * Forward computation: shapes *)

Lemma broadcast_rev_same (l : list nat) : Torch.broadcast_rev l l = Ok l.
Proof.
  induction l as [| x l IH]; simpl; [reflexivity |].
  rewrite IH. simpl. rewrite Nat.eqb_refl. reflexivity.
Qed.

Lemma add_same (x : Tensor) : Torch.add x x = Ok x.
Proof.
  destruct x as [s]. unfold Torch.add. simpl.
  rewrite broadcast_rev_same. simpl. rewrite rev_involutive. reflexivity.
Qed.

Lemma add_positional (a f c : nat) :
  Torch.add (mkTensor [a; f; c]) (mkTensor [1; f; c]) = Ok (mkTensor [a; f; c]).
Proof.
  unfold Torch.add. simpl. rewrite !Nat.eqb_refl. simpl.
  destruct (a =? 1)%nat; reflexivity.
Qed.

Lemma rearrange_frames_in_ok (f n s c : nat) :
  0 < f -> n mod f = 0 ->
  Torch.rearrange_frames_in f (mkTensor [n; s; c])
  = Ok (mkTensor [n / f * s; f; c]).
Proof.
  intros Hf Hn. unfold Torch.rearrange_frames_in. simpl.
  destruct (Nat.eqb_spec f 0) as [-> | _]; [lia |].
  rewrite Hn. reflexivity.
Qed.

Lemma rearrange_frames_out_ok (s q f c : nat) :
  0 < s ->
  Torch.rearrange_frames_out s (mkTensor [q * s; f; c])
  = Ok (mkTensor [q * f; s; c]).
Proof.
  intros Hs. unfold Torch.rearrange_frames_out. simpl.
  destruct (Nat.eqb_spec s 0) as [-> | Hs0]; [lia |].
  rewrite Nat.Div0.mod_mul. simpl. rewrite Nat.div_mul by exact Hs0. reflexivity.
Qed.

Lemma last_is_3 (a b c : nat) : Torch.last_is c (mkTensor [a; b; c]) = true.
Proof. unfold Torch.last_is. simpl. apply Nat.eqb_refl. Qed.

Lemma Forall_combine A B (P : A -> Prop) (Q : B -> Prop) (l : list A) (l' : list B) :
  Forall P l -> Forall Q l' ->
  Forall (fun p => P (fst p) /\ Q (snd p)) (combine l l').
Proof.
  intros Hl. revert l'. induction Hl as [| a l Ha _ IH]; intros l' Hl'; simpl.
  - constructor.
  - destruct Hl' as [| b l' Hb Hl']; constructor; [split; assumption | apply IH; assumption].
Qed.

Section ForwardShapes.

Variable tensor_bool : Tensor -> result bool.
Variable get_scale_mask : TemporalTransformerGeneric -> Tensor -> option Tensor.

Lemma positional_encoding_ok (pe : PositionalEncoding) (ml a f c : nat) :
  positional_encoding pe = mkTensor [1; ml; c] -> f <= ml ->
  PositionalEncoding_forward pe (mkTensor [a; f; c]) f = Ok (mkTensor [a; f; c]).
Proof.
  intros Hpe Hf. unfold PositionalEncoding_forward, Torch.slice_second.
  rewrite Hpe. cbn [shape rbind]. rewrite Nat.min_l by exact Hf.
  apply add_positional.
Qed.

Lemma attention_keeps_shape (self : TemporalAttention) (ml n s c f : nat)
  (mask sm : option Tensor) (log : list forward_event) :
  attention_fits c ml self ->
  0 < f -> n mod f = 0 -> f <= ml -> 0 < s ->
  TemporalAttention_forward tensor_bool self (mkTensor [n; s; c]) None mask f sm log
  = (log ++ [AttentionCalled None], Ok (mkTensor [n; s; c])).
Proof.
  intros [Hq Hpe] Hf Hn Hml Hs. unfold TemporalAttention_forward. run_log.
  unfold size; cbn [shape nth_error].
  rewrite rearrange_frames_in_ok by assumption. run_log.
  rewrite positional_encoding_ok with (ml := ml) by assumption. run_log.
  cbn [truth]. run_log.
  unfold CrossAttentionMM_forward. rewrite Hq, last_is_3. cbn [andb]. run_log.
  rewrite rearrange_frames_out_ok by exact Hs.
  replace (n / f * f) with n; [reflexivity |].
  apply Nat.Div0.div_exact in Hn. lia.
Qed.

Lemma attention_rounds_keep_shape (pairs : list (TemporalAttention * LayerNorm))
  (ml n s c f : nat) (mask sm : option Tensor) :
  Forall (fun bn => attention_fits c ml (fst bn)
                    /\ normalized_shape (snd bn) = c) pairs ->
  0 < f -> n mod f = 0 -> f <= ml -> 0 < s ->
  forall log, exists evs,
    mfold (attention_round tensor_bool None mask f sm) pairs
          (mkTensor [n; s; c]) log
    = (log ++ evs, Ok (mkTensor [n; s; c])).
Proof.
  intros Hpairs Hf Hn Hml Hs.
  induction Hpairs as [| [ta ln] pairs [Hta Hln] _ IH]; intros log.
  - exists []. simpl. unfold mret. rewrite app_nil_r. reflexivity.
  - cbn [mfold]. unfold attention_round at 1. cbn [fst snd] in *.
    unfold Torch.LayerNorm_forward. rewrite Hln, last_is_3. run_log.
    erewrite mbind_run
      by (apply attention_keeps_shape with (ml := ml); assumption).
    rewrite add_same. run_log.
    destruct (IH (log ++ [AttentionCalled None])) as [evs Hevs].
    exists (AttentionCalled None :: evs). rewrite Hevs.
    rewrite <- app_assoc. reflexivity.
Qed.

Lemma block_keeps_shape (self : TransformerBlock) (ml n s c f : nat)
  (enc mask sm : option Tensor) :
  block_fits c ml self ->
  0 < f -> n mod f = 0 -> f <= ml -> 0 < s ->
  forall log, exists evs,
    TransformerBlock_forward tensor_bool self (mkTensor [n; s; c]) enc mask f sm log
    = (log ++ evs, Ok (mkTensor [n; s; c])).
Proof.
  intros (Hcross & Hatt & Hnorms & Hff & Hffn) Hf Hn Hml Hs log.
  unfold TransformerBlock_forward. rewrite Hcross. cbn [negb].
  destruct (@attention_rounds_keep_shape _ ml n s c f mask sm
              (Forall_combine Hatt Hnorms) Hf Hn Hml Hs log) as [evs Hevs].
  erewrite mbind_run by exact Hevs. unfold Torch.LayerNorm_forward. rewrite Hffn, last_is_3. run_log.
  unfold FeedForward_forward. rewrite Hff, last_is_3. run_log.
  rewrite add_same. exists evs. reflexivity.
Qed.

Lemma blocks_keep_shape (blocks : list TransformerBlock) (ml n s c f : nat)
  (enc mask sm : option Tensor) :
  Forall (block_fits c ml) blocks ->
  0 < f -> n mod f = 0 -> f <= ml -> 0 < s ->
  forall log, exists evs,
    mfold (fun h block =>
             TransformerBlock_forward tensor_bool block h enc mask f sm)
          blocks (mkTensor [n; s; c]) log
    = (log ++ evs, Ok (mkTensor [n; s; c])).
Proof.
  intros Hblocks Hf Hn Hml Hs.
  induction Hblocks as [| b blocks Hb _ IH]; intros log.
  - exists []. simpl. unfold mret. rewrite app_nil_r. reflexivity.
  - cbn [mfold].
    destruct (@block_keeps_shape b ml n s c f enc mask sm Hb Hf Hn Hml Hs log)
      as [evs Hevs].
    erewrite mbind_run by exact Hevs.
    destruct (IH (log ++ evs)) as [evs' ->].
    exists (evs ++ evs'). rewrite app_assoc. reflexivity.
Qed.

Lemma tt_keeps_shape (self : TransformerTemporal) (c inner ml B H W : nat)
  (enc mask : option Tensor) :
  tt_fits c inner ml self ->
  0 < video_length (temporal self) ->
  B mod video_length (temporal self) = 0 ->
  video_length (temporal self) <= ml ->
  0 < H * W ->
  forall log, exists evs,
    TransformerTemporal_forward tensor_bool get_scale_mask self
      (mkTensor [B; c; H; W]) enc mask log
    = (log ++ evs, Ok (mkTensor [B; c; H; W])).
Proof.
  intros (Hnorm & Hin & Hout & Hblocks) Hf Hn Hml Hs log.
  unfold TransformerTemporal_forward. run_log.
  unfold Torch.unpack4. cbn [shape]. run_log.
  unfold GroupNormAD_forward. cbn [shape]. rewrite Hnorm, Nat.eqb_refl. run_log.
  unfold size. cbn [shape nth_error]. run_log.
  change (Torch.permute [0; 2; 3; 1] (mkTensor [B; c; H; W]))
    with (Ok (mkTensor [B; H; W; c])). run_log.
  unfold Torch.reshape at 1. cbn [shape Torch.numel fold_right].
  replace (B * (H * W * (c * 1)) =? B * (H * (W * (c * 1))))%nat with true
    by (symmetry; apply Nat.eqb_eq; lia).
  run_log.
  rewrite Hin. unfold Torch.Linear_forward at 1.
  cbn [shape rev app in_features out_features]. rewrite Nat.eqb_refl. run_log.
  destruct (@blocks_keep_shape _ ml B (H * W) inner _ enc mask
              (get_scale_mask (temporal self) (mkTensor [B; c; H; W]))
              Hblocks Hf Hn Hml Hs log) as [evs Hevs].
  erewrite mbind_run by exact Hevs.
  rewrite Hout. unfold Torch.Linear_forward.
  cbn [shape rev app in_features out_features]. rewrite Nat.eqb_refl. run_log.
  unfold Torch.reshape. cbn [shape Torch.numel fold_right].
  replace (B * (H * (W * (c * 1))) =? B * (H * W * (c * 1)))%nat with true
    by (symmetry; apply Nat.eqb_eq; lia).
  run_log.
  change (Torch.permute [0; 3; 1; 2] (mkTensor [B; H; W; c]))
    with (Ok (mkTensor [B; c; H; W])). run_log.
  rewrite add_same. exists evs. reflexivity.
Qed.

End ForwardShapes.

(** C3 as stated fails: the input has the configured 320 channels, its
    batch of 3 is no multiple of the video length 8, and the forward pass
    raises where it splits the batch into frames. *)
Lemma batch_not_multiple_of_video_length :
  get_transformer_temporal 320 24 = Ok (built_tt 320 24)
  /\ outcome (TransformerTemporal_forward no_tensor_bool no_scale_mask
                (built_tt 320 24) (mkTensor [3; 320; 64; 64]) None None)
     = Raise EinopsError.
Proof. split; vm_compute; reflexivity. Qed.

(** C3, amended: a [TransformerTemporal] built by
    [get_transformer_temporal] for [c] channels, in the state reached by
    any setter calls, maps an input of shape [(B, c, H, W)] to an output of
    that shape when its video length is positive, divides [B] and does not
    exceed the maximum length, and [H * W] is positive. *)
Theorem forward_preserves_shape
  (tensor_bool : Tensor -> result bool)
  (get_scale_mask : TemporalTransformerGeneric -> Tensor -> option Tensor)
  (c max_length : nat) (t : TransformerTemporal) (calls : list setter_call)
  (B H W : nat) (encoder_hidden_states attention_mask : option Tensor) :
  get_transformer_temporal c max_length = Ok t ->
  0 < video_length (temporal (fold_left call_tt_setter calls t)) ->
  B mod video_length (temporal (fold_left call_tt_setter calls t)) = 0 ->
  video_length (temporal (fold_left call_tt_setter calls t)) <= max_length ->
  0 < H * W ->
  outcome (TransformerTemporal_forward tensor_bool get_scale_mask
             (fold_left call_tt_setter calls t) (mkTensor [B; c; H; W])
             encoder_hidden_states attention_mask)
  = Ok (mkTensor [B; c; H; W]).
Proof.
  intros Hbuilt Hf Hn Hml Hs.
  apply get_transformer_temporal_built in Hbuilt.
  destruct Hbuilt as (_ & _ & ->).
  destruct (@tt_keeps_shape tensor_bool get_scale_mask _ c (8 * (c / 8))
              max_length B H W encoder_hidden_states attention_mask
              (tt_setters_keep_fit calls (built_tt_fits c max_length))
              Hf Hn Hml Hs []) as [evs Hevs].
  unfold outcome. rewrite Hevs. reflexivity.
Qed.

Lemma forward_preserves_shape_witness :
  outcome (TransformerTemporal_forward no_tensor_bool no_scale_mask
             (fold_left call_tt_setter [SetVideoLength 16 16]
                (built_tt 320 24))
             (mkTensor [32; 320; 64; 64]) None None)
  = Ok (mkTensor [32; 320; 64; 64]).
Proof.
  apply (@forward_preserves_shape no_tensor_bool no_scale_mask 320 24
           (built_tt 320 24) [SetVideoLength 16 16] 32 64 64 None None).
  - reflexivity.
  - simpl. lia.
  - reflexivity.
  - simpl. lia.
  - simpl. lia.
Defined.

(* ================================================================== *)
(** * Forward computation: the context branch *)

Section ForwardLogs.

Variable tensor_bool : Tensor -> result bool.
Variable get_scale_mask : TemporalTransformerGeneric -> Tensor -> option Tensor.

Lemma attention_without_context (self : TemporalAttention) (x : Tensor)
  (mask : option Tensor) (f : nat) (sm : option Tensor) :
  emits_only context_is_none
    (TemporalAttention_forward tensor_bool self x None mask f sm).
Proof.
  unfold TemporalAttention_forward.
  apply emits_only_bind; [apply emits_only_emit; reflexivity | intros _ _ _].
  apply emits_only_bind; [apply emits_only_lift | intros s _ _].
  apply emits_only_bind; [apply emits_only_lift | intros h _ _].
  apply emits_only_bind; [apply emits_only_lift | intros h' _ _].
  apply emits_only_bind; [apply emits_only_lift | intros taken log Htaken].
  simpl in Htaken. injection Htaken as <-.
  apply emits_only_bind; [apply emits_only_ret | intros ctx _ _].
  apply emits_only_bind; [apply emits_only_lift | intros h'' _ _].
  apply emits_only_lift.
Qed.

Lemma self_attention_block_log (self : TransformerBlock) (x : Tensor)
  (enc mask : option Tensor) (f : nat) (sm : option Tensor) :
  is_cross self = false ->
  emits_only context_is_none
    (TransformerBlock_forward tensor_bool self x enc mask f sm).
Proof.
  intros Hcross. unfold TransformerBlock_forward. rewrite Hcross. simpl negb. cbv iota.
  apply emits_only_bind.
  - apply emits_only_mfold. intros h bn _. unfold attention_round.
    apply emits_only_bind; [apply emits_only_lift | intros nh _ _].
    apply emits_only_bind; [apply attention_without_context | intros out _ _].
    apply emits_only_lift.
  - intros h _ _.
    apply emits_only_bind; [apply emits_only_lift | intros nh _ _].
    apply emits_only_bind; [apply emits_only_lift | intros out _ _].
    apply emits_only_lift.
Qed.

Lemma self_attention_tt_log (self : TransformerTemporal) (x : Tensor)
  (enc mask : option Tensor) :
  Forall (fun b => is_cross b = false) (transformer_blocks self) ->
  emits_only context_is_none
    (TransformerTemporal_forward tensor_bool get_scale_mask self x enc mask).
Proof.
  intros Hblocks. unfold TransformerTemporal_forward.
  apply emits_only_bind; [apply emits_only_lift | intros [[[b c] h] w] _ _].
  apply emits_only_bind; [apply emits_only_lift | intros x1 _ _].
  apply emits_only_bind; [apply emits_only_lift | intros inner _ _].
  apply emits_only_bind; [apply emits_only_lift | intros x2 _ _].
  apply emits_only_bind; [apply emits_only_lift | intros x3 _ _].
  apply emits_only_bind; [apply emits_only_lift | intros x4 _ _].
  apply emits_only_bind.
  - apply emits_only_mfold. intros a blk Hin.
    apply self_attention_block_log.
    rewrite Forall_forall in Hblocks. apply Hblocks. exact Hin.
  - intros x5 _ _.
    apply emits_only_bind; [apply emits_only_lift | intros x6 _ _].
    apply emits_only_bind; [apply emits_only_lift | intros x7 _ _].
    apply emits_only_bind; [apply emits_only_lift | intros x8 _ _].
    apply emits_only_lift.
Qed.

End ForwardLogs.

(** C10: the blocks of a [TransformerTemporal] built by
    [get_transformer_temporal] are not cross-attention blocks, whatever
    setters have been called since; in a forward pass through it, with any
    input and any encoder context, every call of [TemporalAttention.forward]
    receives the context [None] and the context-repetition branch is never
    executed. *)
Theorem context_branch_unreachable
  (tensor_bool : Tensor -> result bool)
  (get_scale_mask : TemporalTransformerGeneric -> Tensor -> option Tensor)
  (c max_length : nat) (t : TransformerTemporal) (calls : list setter_call)
  (x : Tensor) (encoder_hidden_states attention_mask : option Tensor) :
  get_transformer_temporal c max_length = Ok t ->
  Forall (fun b => is_cross b = false)
         (transformer_blocks (fold_left call_tt_setter calls t))
  /\ Forall context_is_none
       (events (TransformerTemporal_forward tensor_bool get_scale_mask
                  (fold_left call_tt_setter calls t) x
                  encoder_hidden_states attention_mask))
  /\ ~ In ContextRepeated
       (events (TransformerTemporal_forward tensor_bool get_scale_mask
                  (fold_left call_tt_setter calls t) x
                  encoder_hidden_states attention_mask)).
Proof.
  intros Hbuilt. apply get_transformer_temporal_built in Hbuilt.
  destruct Hbuilt as (_ & _ & ->).
  assert (Hcross : Forall (fun b => is_cross b = false)
            (transformer_blocks (fold_left call_tt_setter calls (built_tt c max_length)))).
  { apply all_false_of_map. rewrite tt_setters_keep_is_cross. simpl.
    repeat constructor. }
  assert (Hlog := emits_only_events
            (@self_attention_tt_log tensor_bool get_scale_mask _ x
               encoder_hidden_states attention_mask Hcross)).
  split; [exact Hcross | split; [exact Hlog |]].
  intros Hin. rewrite Forall_forall in Hlog. specialize (Hlog _ Hin).
  discriminate Hlog.
Qed.

Lemma context_branch_unreachable_witness :
  events (TransformerTemporal_forward every_tensor_true no_scale_mask
            (fold_left call_tt_setter [SetScaleMultiplier (Some 1.5%float)]
               (built_tt 320 24))
            (mkTensor [16; 320; 8; 8]) (Some (mkTensor [2; 77; 320])) None)
  = [AttentionCalled None; AttentionCalled None]
  /\ ~ In ContextRepeated
       (events (TransformerTemporal_forward every_tensor_true no_scale_mask
                  (fold_left call_tt_setter [SetScaleMultiplier (Some 1.5%float)]
                     (built_tt 320 24))
                  (mkTensor [16; 320; 8; 8]) (Some (mkTensor [2; 77; 320])) None)).
Proof.
  split; [vm_compute; reflexivity |].
  apply (@context_branch_unreachable every_tensor_true no_scale_mask 320 24
           (built_tt 320 24) [SetScaleMultiplier (Some 1.5%float)]
           (mkTensor [16; 320; 8; 8]) (Some (mkTensor [2; 77; 320])) None).
  reflexivity.
Defined.

(* ================================================================== *)
(** * Further properties of the validators *)

(** X1: when the tensor of the first positional-encoding key has fewer than
    two dimensions, [size(1)] raises an [IndexError], which leaves the
    lookup and construction. *)
Theorem max_len_needs_second_dimension sd hash name loras key t :
  NoDup (keys sd) ->
  find (fun k => PyStr.endswith k pos_encoder_suffix) (keys sd) = Some key ->
  In (key, t) sd ->
  List.length (shape t) < 2 ->
  get_hsxl_temporal_position_encoding_max_len sd name = Raise IndexError
  /\ outcome (HotShotXLMotionWrapper_init sd hash name loras) = Raise IndexError.
Proof.
  intros Hnd Hfind Hin Hlen.
  assert (H : get_hsxl_temporal_position_encoding_max_len sd name = Raise IndexError).
  { unfold get_hsxl_temporal_position_encoding_max_len.
    erewrite max_len_loop_first_key by exact Hfind.
    rewrite getitem_in with (t := t) by assumption. unfold rbind, size.
    assert (Hnone : nth_error (shape t) 1 = None) by (apply nth_error_None; lia).
    rewrite Hnone. reflexivity. }
  split; [exact H |]. rewrite outcome_cases, H. reflexivity.
Qed.

Lemma max_len_needs_second_dimension_witness :
  outcome (HotShotXLMotionWrapper_init sd_flat_encoding "hash" "mm.ckpt" None)
  = Raise IndexError.
Proof.
  apply (@max_len_needs_second_dimension sd_flat_encoding "hash" "mm.ckpt" None
           "pos_encoder.positional_encoding" (mkTensor [24])).
  - repeat constructor; simpl; intuition discriminate.
  - reflexivity.
  - simpl. right. left. reflexivity.
  - simpl. lia.
Defined.

(** The number the loop ends with is the maximum of its start value and
    the block numbers read. *)
Lemma biggest_from_is_max (ks : list string) (b : Z) :
  let F := fold_left (fun biggest key =>
               match block_number key with
               | Some n => if (n >? biggest)%Z then n else biggest
               | None => biggest
               end) ks b in
  (b <= F)%Z
  /\ (forall key n, In key ks -> block_number key = Some n -> (n <= F)%Z)
  /\ (F = b \/ exists key, In key ks /\ block_number key = Some F).
Proof.
  revert b. induction ks as [| k ks IH]; intros b; simpl.
  - split; [lia | split; [intros ? ? [] | left; reflexivity]].
  - set (b' := match block_number k with
               | Some n => if (n >? b)%Z then n else b
               | None => b
               end).
    destruct (IH b') as (Hle & Hall & Hatt).
    assert (Hb : (b <= b')%Z).
    { unfold b'. destruct (block_number k) as [n |]; [| lia].
      destruct (Z.gtb_spec n b); lia. }
    split; [lia | split].
    + intros key n [<- | Hin] Hnum.
      * assert ((n <= b')%Z); [| lia].
        unfold b'. rewrite Hnum. destruct (Z.gtb_spec n b); lia.
      * apply Hall with (key := key); assumption.
    + destruct Hatt as [Heq | (key & Hin & Hnum)].
      * rewrite Heq. unfold b'.
        destruct (block_number k) as [n |] eqn:Hk; [| left; reflexivity].
        destruct (Z.gtb_spec n b).
        -- right. exists k. split; [left; reflexivity | exact Hk].
        -- left. reflexivity.
      * right. exists key. split; [right; exact Hin | exact Hnum].
Qed.

Lemma biggest_block_number_is_max (ks : list string) :
  (0 <= biggest_block_number ks)%Z
  /\ (forall key n, In key ks -> block_number key = Some n ->
                    (n <= biggest_block_number ks)%Z)
  /\ (biggest_block_number ks = 0%Z
      \/ exists key, In key ks /\ block_number key = Some (biggest_block_number ks)).
Proof. apply (biggest_from_is_max ks 0). Qed.

Lemma biggest_block_number_same_keys (ks ks' : list string) :
  (forall key, In key ks <-> In key ks') ->
  biggest_block_number ks = biggest_block_number ks'.
Proof.
  intros Hsame.
  destruct (biggest_block_number_is_max ks) as (H0 & Hall & Hatt).
  destruct (biggest_block_number_is_max ks') as (H0' & Hall' & Hatt').
  apply Z.le_antisymm.
  - destruct Hatt as [-> | (key & Hin & Hnum)]; [exact H0' |].
    apply Hall' with (key := key); [apply Hsame; exact Hin | exact Hnum].
  - destruct Hatt' as [-> | (key & Hin & Hnum)]; [exact H0 |].
    apply Hall with (key := key); [apply Hsame; exact Hin | exact Hnum].
Qed.

(** X2: when every marked key has a second segment, the block-count
    validation accepts exactly the dictionaries in which some key reads as
    block 2 and no key reads as a bigger block. *)
Theorem block_count_accepts_iff sd name :
  marked_keys_have_second_segment (keys sd) ->
  (validate_hsxl_block_count sd name = Ok tt
   <-> (exists key, In key (keys sd) /\ block_number key = Some 2%Z)
       /\ (forall key n, In key (keys sd) -> block_number key = Some n ->
                         (n <= 2)%Z)).
Proof.
  intros Hseg. rewrite validate_by_biggest by exact Hseg.
  destruct (biggest_block_number_is_max (keys sd)) as (H0 & Hall & Hatt).
  destruct (Z.eqb_spec (biggest_block_number (keys sd)) 2) as [Heq | Hne].
  - split; [intros _ | reflexivity]. split.
    + destruct Hatt as [H | (key & Hin & Hnum)]; [lia |].
      exists key. rewrite Heq in Hnum. split; assumption.
    + intros key n Hin Hnum. rewrite <- Heq. apply Hall with (key := key); assumption.
  - split; [discriminate |].
    intros [(key & Hin & Hnum) Hmax]. exfalso. apply Hne.
    apply Z.le_antisymm.
    + destruct Hatt as [-> | (key' & Hin' & Hnum')]; [lia |].
      apply Hmax with (key := key'); assumption.
    + apply Hall with (key := key); assumption.
Qed.

Lemma block_count_accepts_iff_witness :
  validate_hsxl_block_count sd_v1 "mm.ckpt" = Ok tt
  <-> (exists key, In key (keys sd_v1) /\ block_number key = Some 2%Z)
      /\ (forall key n, In key (keys sd_v1) -> block_number key = Some n ->
                        (n <= 2)%Z).
Proof.
  apply (@block_count_accepts_iff sd_v1 "mm.ckpt").
  intros key Hin _. simpl in Hin.
  destruct Hin as [<- | [<- | [<- | [<- | [<- | []]]]]]; vm_compute; discriminate.
Defined.

(** The loop ends normally only when every marked key has a second
    segment. *)
Lemma block_count_loop_ok_segments (ks : list string) (b b' : Z) :
  rfold block_count_step ks b = Ok b' -> marked_keys_have_second_segment ks.
Proof.
  revert b. induction ks as [| k ks IH]; simpl; intros b Hok key Hin Hmark.
  - contradiction.
  - unfold block_count_step at 1 in Hok. unfold second_segment.
    destruct Hin as [<- | Hin].
    + rewrite Hmark in Hok.
      destruct (nth_error (PyStr.split "." k) 1); [discriminate | discriminate Hok].
    + destruct (PyStr.contains down_blocks_marker k).
      * destruct (nth_error (PyStr.split "." k) 1) as [seg |]; [| discriminate Hok].
        destruct (PyStr.int seg); simpl in Hok;
          apply (IH _ Hok key Hin Hmark).
      * simpl in Hok. apply (IH _ Hok key Hin Hmark).
Qed.

Lemma block_count_loop_index_error (ks : list string) (key : string) :
  In key ks -> PyStr.contains down_blocks_marker key = true ->
  second_segment key = None ->
  rfold block_count_step ks 0%Z = Raise IndexError.
Proof.
  intros Hin Hmark Hnone.
  destruct (rfold block_count_step ks 0%Z) as [b | e] eqn:Hloop.
  - exfalso. apply (@block_count_loop_ok_segments ks 0%Z b Hloop key Hin Hmark).
    exact Hnone.
  - apply block_count_loop_raises in Hloop. rewrite Hloop. reflexivity.
Qed.

(** X3: one key that contains [down_blocks] and has no second segment makes
    the block-count validation raise an [IndexError], whatever the other
    keys are, and construction with it when the max-length lookup
    succeeded. *)
Theorem marked_key_without_dot_raises sd hash name loras key :
  In key (keys sd) ->
  PyStr.contains down_blocks_marker key = true ->
  second_segment key = None ->
  validate_hsxl_block_count sd name = Raise IndexError
  /\ (forall n, get_hsxl_temporal_position_encoding_max_len sd name = Ok n ->
        outcome (HotShotXLMotionWrapper_init sd hash name loras) = Raise IndexError).
Proof.
  intros Hin Hmark Hnone.
  assert (H : validate_hsxl_block_count sd name = Raise IndexError).
  { unfold validate_hsxl_block_count.
    rewrite block_count_loop_index_error with (key := key) by assumption.
    reflexivity. }
  split; [exact H |].
  intros n Hlen. rewrite outcome_cases, Hlen, H. reflexivity.
Qed.

Lemma marked_key_without_dot_raises_witness :
  validate_hsxl_block_count sd_bare_marker "mm.ckpt" = Raise IndexError.
Proof.
  apply (@marked_key_without_dot_raises sd_bare_marker "hash" "mm.ckpt" None
           "down_blocks").
  - simpl. left. reflexivity.
  - reflexivity.
  - reflexivity.
Defined.

Lemma segments_same_keys (ks ks' : list string) :
  (forall key, In key ks <-> In key ks') ->
  marked_keys_have_second_segment ks -> marked_keys_have_second_segment ks'.
Proof.
  intros Hsame Hseg key Hin. apply Hseg. apply Hsame. exact Hin.
Qed.

Lemma existsb_same_members A (f : A -> bool) (l l' : list A) :
  (forall a, In a l <-> In a l') -> existsb f l = existsb f l'.
Proof.
  intros Hsame.
  destruct (existsb f l) eqn:Hl; destruct (existsb f l') eqn:Hl'; try reflexivity.
  - apply existsb_exists in Hl. destruct Hl as (a & Hin & Hfa).
    assert (H : existsb f l' = true).
    { apply existsb_exists. exists a. split; [apply Hsame; exact Hin | exact Hfa]. }
    congruence.
  - apply existsb_exists in Hl'. destruct Hl' as (a & Hin & Hfa).
    assert (H : existsb f l = true).
    { apply existsb_exists. exists a. split; [apply Hsame; exact Hin | exact Hfa]. }
    congruence.
Qed.

(** X4: the block-count validation and the mid-block check depend on the
    set of keys only, not on their order or on the tensors. *)
Theorem checks_ignore_key_order sd sd' name :
  same_keys sd sd' ->
  validate_hsxl_block_count sd name = validate_hsxl_block_count sd' name
  /\ has_mid_block sd = has_mid_block sd'.
Proof.
  intros Hsame. split.
  - unfold validate_hsxl_block_count.
    destruct (rfold block_count_step (keys sd) 0%Z) as [b | e] eqn:Hloop;
      destruct (rfold block_count_step (keys sd') 0%Z) as [b' | e'] eqn:Hloop'.
    + assert (Hseg := @block_count_loop_ok_segments _ _ _ Hloop).
      assert (Hseg' := @block_count_loop_ok_segments _ _ _ Hloop').
      rewrite block_count_loop in Hloop, Hloop' by assumption.
      injection Hloop as <-. injection Hloop' as <-.
      fold (biggest_block_number (keys sd)).
      fold (biggest_block_number (keys sd')).
      rewrite (@biggest_block_number_same_keys (keys sd) (keys sd') Hsame).
      reflexivity.
    + exfalso.
      assert (Hseg := @block_count_loop_ok_segments _ _ _ Hloop).
      rewrite block_count_loop in Hloop'
        by (apply segments_same_keys with (ks := keys sd); assumption).
      discriminate.
    + exfalso.
      assert (Hseg' := @block_count_loop_ok_segments _ _ _ Hloop').
      rewrite block_count_loop in Hloop.
      * discriminate.
      * apply segments_same_keys with (ks := keys sd'); [| exact Hseg'].
        intros key. symmetry. apply Hsame.
    + apply block_count_loop_raises in Hloop, Hloop'. subst. reflexivity.
  - unfold has_mid_block. apply existsb_same_members. exact Hsame.
Qed.

Lemma checks_ignore_key_order_witness :
  validate_hsxl_block_count sd_v1 "mm.ckpt"
  = validate_hsxl_block_count sd_v1_reordered "mm.ckpt"
  /\ has_mid_block sd_v1 = has_mid_block sd_v1_reordered.
Proof.
  apply (@checks_ignore_key_order sd_v1 sd_v1_reordered "mm.ckpt").
  intros key. simpl. intuition.
Defined.

Lemma find_app_first A (f : A -> bool) (l l' : list A) (a : A) :
  find f l = Some a -> find f (l ++ l') = Some a.
Proof.
  induction l as [| x l IH]; simpl; [discriminate |].
  destruct (f x); [intros H; exact H | exact IH].
Qed.

Lemma getitem_app_first (d d' : StateDict) (key : string) :
  In key (keys d) -> getitem (d ++ d') key = getitem d key.
Proof.
  induction d as [| [k t] d IH]; simpl; intros Hin.
  - contradiction.
  - destruct (String.eqb_spec k key) as [_ | Hne]; [reflexivity |].
    apply IH. destruct Hin as [Heq | Hin]; [contradiction | exact Hin].
Qed.

(** X5: the first key that ends in the positional-encoding suffix decides
    the maximum length; entries added after it, other positional encodings
    included, change nothing. *)
Theorem max_len_first_key_wins (sd extra : StateDict) (name key : string) :
  find (fun k => PyStr.endswith k pos_encoder_suffix) (keys sd) = Some key ->
  get_hsxl_temporal_position_encoding_max_len (sd ++ extra) name
  = get_hsxl_temporal_position_encoding_max_len sd name.
Proof.
  intros Hfind. unfold get_hsxl_temporal_position_encoding_max_len.
  rewrite (@max_len_loop_first_key sd (keys sd) name key Hfind).
  assert (Hfind' : find (fun k => PyStr.endswith k pos_encoder_suffix)
                        (keys (sd ++ extra)) = Some key).
  { unfold keys. rewrite map_app. apply find_app_first. exact Hfind. }
  rewrite (@max_len_loop_first_key (sd ++ extra) (keys (sd ++ extra)) name key
             Hfind').
  rewrite getitem_app_first; [reflexivity |].
  apply find_some in Hfind. apply Hfind.
Qed.

Lemma max_len_first_key_wins_witness :
  get_hsxl_temporal_position_encoding_max_len sd_two_lengths "mm.ckpt" = Ok 24.
Proof.
  unfold sd_two_lengths.
  rewrite (@max_len_first_key_wins sd_v1
             [ ("up_blocks.0.temporal_attentions.0.transformer_blocks.0.attention_blocks.0.pos_encoder.positional_encoding",
                mkTensor [1; 32; 1280]) ] "mm.ckpt" pos_key).
  - reflexivity.
  - reflexivity.
Defined.

(* ================================================================== *)
(** * Further properties of construction *)

(** X6: every constructed wrapper has three down modules of two
    [TransformerTemporal]s at 320, 640 and 1280 channels, three up modules
    of three at 1280, 640 and 320 channels, no mid block, version
    "HSXL v1", video length 8 throughout, one block per
    [TransformerTemporal], and attentions of 8 heads with no scale set. *)
Theorem constructed_tree_layout sd hash name loras w :
  outcome (HotShotXLMotionWrapper_init sd hash name loras) = Ok w ->
  module_sizes (down_blocks w) = [2; 2; 2]
  /\ module_sizes (up_blocks w) = [3; 3; 3]
  /\ module_channels (down_blocks w) = [[320; 320]; [640; 640]; [1280; 1280]]
  /\ module_channels (up_blocks w)
     = [[1280; 1280; 1280]; [640; 640; 640]; [320; 320; 320]]
  /\ mid_block w = None
  /\ version w = "HSXL v1"
  /\ AD_video_length w = 8
  /\ mm_hash w = hash /\ mm_name w = name
  /\ Forall (fun t => video_length (temporal t) = 8
                      /\ List.length (transformer_blocks t) = 1)
            (wrapper_tts w)
  /\ Forall (fun a => scale a = None /\ heads a = 8
                      /\ heads a * dim_head a = query_dim a)
            (wrapper_attentions w).
Proof.
  intros Hw. apply constructed_wrapper in Hw.
  destruct Hw as (n & _ & _ & _ & ->).
  repeat split; try reflexivity.
  - cbn. repeat constructor.
  - cbn. repeat (constructor; [repeat split; reflexivity |]). constructor.
Qed.

Lemma constructed_tree_layout_witness :
  module_sizes (down_blocks (built_wrapper 24 "hash" "mm.ckpt" None)) = [2; 2; 2].
Proof.
  apply (@constructed_tree_layout sd_v1 "hash" "mm.ckpt" None
           (built_wrapper 24 "hash" "mm.ckpt" None)).
  vm_compute. reflexivity.
Defined.

(** A key of the layout [down_blocks.<i>.<rest>], [i] in 0..2, reads as
    block [i]. *)
Lemma conventional_block_number (key : string) :
  conventional_down_key key = true ->
  (block_number key = Some 0 \/ block_number key = Some 1
   \/ block_number key = Some 2)%Z
  /\ second_segment key <> None
  /\ (PyStr.startswith key "down_blocks.2." = true -> block_number key = Some 2%Z).
Proof.
  unfold conventional_down_key. intros H.
  apply orb_true_iff in H. destruct H as [H | H2].
  - apply orb_true_iff in H. destruct H as [H0 | H1].
    + destruct (startswith_app _ _ H0) as [rest ->].
      split; [left; reflexivity | split; [discriminate | discriminate]].
    + destruct (startswith_app _ _ H1) as [rest ->].
      split; [right; left; reflexivity | split; [discriminate | discriminate]].
  - destruct (startswith_app _ _ H2) as [rest ->].
    split; [right; right; reflexivity | split; [discriminate | reflexivity]].
Qed.

(** X7: a dictionary whose first positional-encoding tensor is
    3-dimensional, whose marked keys all have the layout
    [down_blocks.<i>.<rest>] with [i] in 0..2, one of them with 2, and which
    has no temporal mid-block key, is accepted, and the wrapper built has
    the middle dimension of that tensor as its maximum length. *)
Theorem conventional_checkpoint_accepted sd hash name loras key t d0 n d2 top :
  NoDup (keys sd) ->
  find (fun k => PyStr.endswith k pos_encoder_suffix) (keys sd) = Some key ->
  In (key, t) sd ->
  shape t = [d0; n; d2] ->
  (forall k, In k (keys sd) -> PyStr.contains down_blocks_marker k = true ->
             conventional_down_key k = true) ->
  In top (keys sd) ->
  PyStr.startswith top "down_blocks.2." = true ->
  has_mid_block sd = false ->
  outcome (HotShotXLMotionWrapper_init sd hash name loras)
  = Ok (built_wrapper n hash name loras).
Proof.
  intros Hnd Hfind Hin Hshape Hconv Htop Htop2 Hmid.
  assert (Hlen : get_hsxl_temporal_position_encoding_max_len sd name = Ok n).
  { unfold get_hsxl_temporal_position_encoding_max_len.
    erewrite max_len_loop_first_key by exact Hfind.
    rewrite getitem_in with (t := t) by assumption. unfold rbind, size.
    rewrite Hshape. reflexivity. }
  assert (Hseg : marked_keys_have_second_segment (keys sd)).
  { intros k Hk Hmark. apply conventional_block_number. apply Hconv; assumption. }
  assert (Htopconv : conventional_down_key top = true).
  { unfold conventional_down_key. rewrite Htop2. apply orb_true_r. }
  assert (Hbig : biggest_block_number (keys sd) = 2%Z).
  { destruct (biggest_block_number_is_max (keys sd)) as (H0 & Hall & Hatt).
    apply Z.le_antisymm.
    - destruct Hatt as [-> | (k & Hk & Hnum)]; [lia |].
      assert (Hmark : PyStr.contains down_blocks_marker k = true).
      { unfold block_number in Hnum.
        destruct (PyStr.contains down_blocks_marker k); [reflexivity | discriminate]. }
      destruct (conventional_block_number k (Hconv k Hk Hmark)) as [Hcases _].
      rewrite Hnum in Hcases.
      destruct Hcases as [H | [H | H]]; injection H as ->; lia.
    - apply Hall with (key := top); [exact Htop |].
      apply conventional_block_number; assumption. }
  assert (Hval : validate_hsxl_block_count sd name = Ok tt).
  { rewrite validate_by_biggest by exact Hseg. rewrite Hbig. reflexivity. }
  rewrite outcome_cases, Hlen, Hval, Hmid. reflexivity.
Qed.

Lemma conventional_checkpoint_accepted_witness :
  outcome (HotShotXLMotionWrapper_init sd_v1 "hash" "mm.ckpt" None)
  = Ok (built_wrapper 24 "hash" "mm.ckpt" None).
Proof.
  apply (@conventional_checkpoint_accepted sd_v1 "hash" "mm.ckpt" None
           pos_key (mkTensor [1; 24; 320]) 1 24 320
           "down_blocks.2.temporal_attentions.0.proj_in.weight").
  - repeat constructor; simpl; intuition discriminate.
  - reflexivity.
  - simpl. right. left. reflexivity.
  - reflexivity.
  - intros k Hk. simpl in Hk.
    destruct Hk as [<- | [<- | [<- | [<- | [<- | []]]]]]; vm_compute;
      intros H; first [reflexivity | discriminate H].
  - simpl. do 3 right. left. reflexivity.
  - reflexivity.
  - reflexivity.
Defined.

Lemma check_keywords_ok (kw : kwargs) :
  check_keywords kw = Ok tt ->
  Forall (fun kv => fst kv = "block_type" \/ fst kv = "max_length") kw.
Proof.
  induction kw as [| [k v] kw IH]; simpl; intros H.
  - constructor.
  - destruct (String.eqb_spec k "block_type") as [-> | Hb]; simpl in H.
    + constructor; [left; reflexivity | apply IH; exact H].
    + destruct (String.eqb_spec k "max_length") as [-> | Hm]; simpl in H.
      * constructor; [right; reflexivity | apply IH; exact H].
      * destruct (String.eqb k "in_channels"); discriminate H.
Qed.

(** X8: when [HotShotXLMotionModule(...)] returns, every keyword named a
    parameter, and the module holds one [TransformerTemporal] for a mid
    block, three for an up block and two otherwise (also when no block type
    is given), all built for the given channels and maximum length
    (24 when none is given). *)
Theorem module_children_by_keywords (c : nat) (kw : kwargs)
  (m : HotShotXLMotionModule) :
  HotShotXLMotionModule_init c kw = Ok m ->
  Forall (fun kv => fst kv = "block_type" \/ fst kv = "max_length") kw
  /\ exists n t,
       max_length_by_keyword kw = Some n
       /\ get_transformer_temporal c n = Ok t
       /\ temporal_attentions m = repeat t (children_by_keyword kw).
Proof.
  unfold HotShotXLMotionModule_init, bind_module_arguments,
    max_length_by_keyword, children_by_keyword.
  destruct (check_keywords kw) as [[] | e] eqn:Hkw; simpl; [| discriminate].
  intros H. split; [apply check_keywords_ok; exact Hkw |].
  destruct (kw_lookup "max_length" kw) as [[b | n] |]; [discriminate | |].
  - destruct (get_transformer_temporal c n) as [t | e] eqn:Ht;
      [| destruct (kw_lookup "block_type" kw) as [[[] | ?] |]; discriminate].
    exists n, t. split; [reflexivity | split; [exact Ht |]].
    destruct (kw_lookup "block_type" kw) as [[[] | ?] |]; simpl in H;
      injection H as <-; reflexivity.
  - destruct (get_transformer_temporal c 24) as [t | e] eqn:Ht;
      [| destruct (kw_lookup "block_type" kw) as [[[] | ?] |]; discriminate].
    exists 24, t. split; [reflexivity | split; [exact Ht |]].
    destruct (kw_lookup "block_type" kw) as [[[] | ?] |]; simpl in H;
      injection H as <-; reflexivity.
Qed.

Lemma module_children_by_keywords_witness :
  exists n t,
    max_length_by_keyword [] = Some n
    /\ get_transformer_temporal 320 n = Ok t
    /\ temporal_attentions (built_module DOWN 24 320) = repeat t (children_by_keyword []).
Proof.
  apply (@module_children_by_keywords 320 [] (built_module DOWN 24 320)).
  reflexivity.
Defined.

(** X9: a construction that ends in a [MotionCompatibilityError] or an
    [IndexError] has instantiated no module: its log holds the validator
    calls only. *)
Theorem validation_failure_builds_nothing sd hash name loras e :
  outcome (HotShotXLMotionWrapper_init sd hash name loras) = Raise e ->
  e = IndexError \/ (exists msg, e = MotionCompatibilityError msg) ->
  (events (HotShotXLMotionWrapper_init sd hash name loras) = [MaxLenLookup]
   \/ events (HotShotXLMotionWrapper_init sd hash name loras)
      = [MaxLenLookup; BlockCountValidation])
  /\ forall m, ~ In (ModuleInstantiated m)
                  (events (HotShotXLMotionWrapper_init sd hash name loras)).
Proof.
  rewrite outcome_cases, events_cases.
  destruct (get_hsxl_temporal_position_encoding_max_len sd name) as [n | e0].
  - destruct (validate_hsxl_block_count sd name) as [[] | e1].
    + destruct (has_mid_block sd); [| discriminate].
      intros H. injection H as <-. intros [H | [msg H]]; discriminate H.
    + intros _ _. split; [right; reflexivity |].
      intros m [H | [H | []]]; discriminate H.
  - intros _ _. split; [left; reflexivity |].
    intros m [H | []]; discriminate H.
Qed.

Lemma validation_failure_builds_nothing_witness :
  events (HotShotXLMotionWrapper_init sd_two_levels "hash" "mm.ckpt" None)
  = [MaxLenLookup]
  \/ events (HotShotXLMotionWrapper_init sd_two_levels "hash" "mm.ckpt" None)
     = [MaxLenLookup; BlockCountValidation].
Proof.
  apply (@validation_failure_builds_nothing sd_two_levels "hash" "mm.ckpt" None
           (MotionCompatibilityError
              "Expected biggest down_block to be 2, but was 1 - mm.ckpt is not a valid HotShotXL motion module!")).
  - vm_compute. reflexivity.
  - right. eexists. reflexivity.
Defined.

(* ================================================================== *)
(** * Further properties of the setters *)

(** X10: [set_video_length] stores the video length on the wrapper and the
    video and full lengths on every [TransformerTemporal] of the tree. *)
Theorem set_video_length_reaches_every_tt (w : HotShotXLMotionWrapper)
  (v f : nat) :
  AD_video_length (set_video_length v f w) = v
  /\ Forall (fun t => video_length (temporal t) = v
                      /\ full_length (temporal t) = f)
            (wrapper_tts (set_video_length v f w))
  /\ List.length (wrapper_tts (set_video_length v f w))
     = List.length (wrapper_tts w).
Proof.
  split; [reflexivity |].
  change (set_video_length v f w) with (call_setter w (SetVideoLength v f)).
  rewrite wrapper_tts_call_setter. split.
  - apply Forall_map. apply Forall_forall. intros t _. split; reflexivity.
  - apply length_map.
Qed.

(** X11: [set_masks] stores the mask and its bounds, and [set_sub_idxs] the
    indices, on every [TransformerTemporal] of the tree; neither changes a
    video length, and [set_sub_idxs] changes no mask. *)
Theorem masks_and_indices_reach_every_tt (w : HotShotXLMotionWrapper)
  (masks : Tensor) (min_val max_val : float) (idxs : option (list Z)) :
  Forall (fun t => raw_scale_mask (temporal t) = Some masks
                   /\ scale_min (temporal t) = min_val
                   /\ scale_max (temporal t) = max_val)
         (wrapper_tts (set_masks masks min_val max_val w))
  /\ Forall (fun t => sub_idxs (temporal t) = idxs)
            (wrapper_tts (set_sub_idxs idxs w))
  /\ map (fun t => video_length (temporal t))
         (wrapper_tts (set_masks masks min_val max_val w))
     = map (fun t => video_length (temporal t)) (wrapper_tts w)
  /\ map (fun t => (video_length (temporal t), raw_scale_mask (temporal t)))
         (wrapper_tts (set_sub_idxs idxs w))
     = map (fun t => (video_length (temporal t), raw_scale_mask (temporal t)))
           (wrapper_tts w).
Proof.
  change (set_masks masks min_val max_val w)
    with (call_setter w (SetMasks masks min_val max_val)).
  change (set_sub_idxs idxs w) with (call_setter w (SetSubIdxs idxs)).
  rewrite !wrapper_tts_call_setter. repeat split.
  - apply Forall_map. apply Forall_forall. intros t _. repeat split.
  - apply Forall_map. apply Forall_forall. intros t _. reflexivity.
  - rewrite map_map. reflexivity.
  - rewrite map_map. reflexivity.
Qed.

Lemma set_scale_effective (m : option float) (a : TemporalAttention) :
  TemporalAttention_set_scale_multiplier m a = with_scale (effective_scale m) a.
Proof.
  unfold TemporalAttention_set_scale_multiplier, effective_scale.
  destruct m as [x |]; [destruct (isclose x 1) |]; reflexivity.
Qed.

(** X12: after [set_scale_multiplier] every [TemporalAttention] of the
    tree has the scale the multiplier stands for; positional encoders and
    the per-step state of the [TransformerTemporal]s are untouched. *)
Theorem scale_multiplier_reaches_every_attention (w : HotShotXLMotionWrapper)
  (m : option float) :
  Forall (fun a => scale a = effective_scale m)
         (wrapper_attentions (set_scale_multiplier m w))
  /\ map pos_encoder (wrapper_attentions (set_scale_multiplier m w))
     = map pos_encoder (wrapper_attentions w)
  /\ map (fun t => temporal t) (wrapper_tts (set_scale_multiplier m w))
     = map (fun t => temporal t) (wrapper_tts w).
Proof.
  rewrite wrapper_attentions_set_scale. repeat split.
  - apply Forall_map. apply Forall_forall. intros a _.
    rewrite set_scale_effective. reflexivity.
  - rewrite map_map. apply map_ext. intros a. apply set_scale_keeps_pos_encoder.
  - change (set_scale_multiplier m w) with (call_setter w (SetScaleMultiplier m)).
    rewrite wrapper_tts_call_setter, map_map. reflexivity.
Qed.

(** ** Two setter calls in a row *)

Lemma call_setter_for_each (w : HotShotXLMotionWrapper) (c : setter_call) :
  call_setter w c
  = for_each_block (for_each_tt (fun t => call_tt_setter t c))
      (match c with SetVideoLength v _ => v | _ => AD_video_length w end) w.
Proof. destruct c; reflexivity. Qed.

Lemma for_each_block_compose
  (f g : HotShotXLMotionModule -> HotShotXLMotionModule) (v v' : nat)
  (w : HotShotXLMotionWrapper) :
  for_each_block f v (for_each_block g v' w)
  = for_each_block (fun m => f (g m)) v w.
Proof.
  unfold for_each_block. simpl. rewrite !map_map.
  destruct (mid_block w); reflexivity.
Qed.

Lemma for_each_block_ext
  (f g : HotShotXLMotionModule -> HotShotXLMotionModule) (v : nat)
  (w : HotShotXLMotionWrapper) :
  (forall m, f m = g m) -> for_each_block f v w = for_each_block g v w.
Proof.
  intros H. unfold for_each_block.
  rewrite (map_ext f g H (down_blocks w)), (map_ext f g H (up_blocks w)).
  destruct (mid_block w) as [m |]; simpl; [rewrite H |]; reflexivity.
Qed.

Lemma for_each_tt_compose (f g : TransformerTemporal -> TransformerTemporal)
  (m : HotShotXLMotionModule) :
  for_each_tt f (for_each_tt g m) = for_each_tt (fun t => f (g t)) m.
Proof. unfold for_each_tt. simpl. rewrite map_map. reflexivity. Qed.

Lemma for_each_tt_ext (f g : TransformerTemporal -> TransformerTemporal)
  (m : HotShotXLMotionModule) :
  (forall t, f t = g t) -> for_each_tt f m = for_each_tt g m.
Proof.
  intros H. unfold for_each_tt. rewrite (map_ext f g H). reflexivity.
Qed.

Lemma two_calls (w : HotShotXLMotionWrapper) (a b : setter_call) :
  call_setter (call_setter w a) b
  = for_each_block
      (for_each_tt (fun t => call_tt_setter (call_tt_setter t a) b))
      (match b with
       | SetVideoLength v _ => v
       | _ => match a with SetVideoLength v _ => v | _ => AD_video_length w end
       end) w.
Proof.
  rewrite (call_setter_for_each (call_setter w a) b), (call_setter_for_each w a).
  rewrite for_each_block_compose.
  replace (match b with
           | SetVideoLength v _ => v
           | _ => AD_video_length
                    (for_each_block (for_each_tt (fun t => call_tt_setter t a))
                       (match a with
                        | SetVideoLength v _ => v
                        | _ => AD_video_length w
                        end) w)
           end)
    with (match b with
          | SetVideoLength v _ => v
          | _ => match a with SetVideoLength v _ => v | _ => AD_video_length w end
          end) by (destruct b; reflexivity).
  apply for_each_block_ext. intros m. apply for_each_tt_compose.
Qed.

Lemma tt_calls_commute (t : TransformerTemporal) (a b : setter_call) :
  setter_kind a <> setter_kind b ->
  call_tt_setter (call_tt_setter t a) b = call_tt_setter (call_tt_setter t b) a.
Proof.
  intros Hkind. destruct a, b; try reflexivity; exfalso; apply Hkind; reflexivity.
Qed.

(** X13: two calls of different setters can be made in either order.
    ([reset_temp_vars], whose leaf is not in the sources, is left out.) *)
Theorem different_setters_commute (w : HotShotXLMotionWrapper)
  (a b : setter_call) :
  setter_kind a <> setter_kind b ->
  a <> ResetTempVars -> b <> ResetTempVars ->
  call_setter (call_setter w a) b = call_setter (call_setter w b) a.
Proof.
  intros Hkind _ _. rewrite !two_calls.
  replace (match a with
           | SetVideoLength v _ => v
           | _ => match b with SetVideoLength v _ => v | _ => AD_video_length w end
           end)
    with (match b with
          | SetVideoLength v _ => v
          | _ => match a with SetVideoLength v _ => v | _ => AD_video_length w end
          end)
    by (destruct a, b; try reflexivity; exfalso; apply Hkind; reflexivity).
  apply for_each_block_ext. intros m. apply for_each_tt_ext. intros t.
  apply tt_calls_commute. exact Hkind.
Qed.

Lemma different_setters_commute_witness :
  call_setter (call_setter (built_wrapper 24 "hash" "mm.ckpt" None)
                 (SetVideoLength 16 32))
              (SetScaleMultiplier (Some 1.5%float))
  = call_setter (call_setter (built_wrapper 24 "hash" "mm.ckpt" None)
                   (SetScaleMultiplier (Some 1.5%float)))
                (SetVideoLength 16 32).
Proof.
  apply (@different_setters_commute (built_wrapper 24 "hash" "mm.ckpt" None)
           (SetVideoLength 16 32) (SetScaleMultiplier (Some 1.5%float))).
  - simpl. lia.
  - discriminate.
  - discriminate.
Defined.

Lemma attention_later_scale (m1 m2 : option float) (a : TemporalAttention) :
  TemporalAttention_set_scale_multiplier m2
    (TemporalAttention_set_scale_multiplier m1 a)
  = TemporalAttention_set_scale_multiplier m2 a.
Proof. rewrite !set_scale_effective. reflexivity. Qed.

Lemma tt_later_call (t : TransformerTemporal) (a b : setter_call) :
  setter_kind a = setter_kind b ->
  call_tt_setter (call_tt_setter t a) b = call_tt_setter t b.
Proof.
  intros Hkind. destruct a, b; try discriminate Hkind; try reflexivity.
  simpl. unfold TransformerTemporal_set_scale_multiplier. simpl.
  f_equal. rewrite map_map. apply map_ext. intros blk.
  unfold TransformerBlock_set_scale_multiplier. simpl.
  f_equal. rewrite map_map. apply map_ext. intros att.
  apply attention_later_scale.
Qed.

(** X14: a call of a setter makes an earlier call of the same setter
    irrelevant. *)
Theorem later_call_overrides (w : HotShotXLMotionWrapper) (a b : setter_call) :
  setter_kind a = setter_kind b ->
  b <> ResetTempVars ->
  call_setter (call_setter w a) b = call_setter w b.
Proof.
  intros Hkind _. rewrite two_calls, call_setter_for_each.
  replace (match b with
           | SetVideoLength v _ => v
           | _ => match a with SetVideoLength v _ => v | _ => AD_video_length w end
           end)
    with (match b with SetVideoLength v _ => v | _ => AD_video_length w end)
    by (destruct a, b; try reflexivity; discriminate Hkind).
  apply for_each_block_ext. intros m. apply for_each_tt_ext. intros t.
  apply tt_later_call. exact Hkind.
Qed.

Lemma later_call_overrides_witness :
  call_setter (call_setter (built_wrapper 24 "hash" "mm.ckpt" None)
                 (SetScaleMultiplier (Some 1.5%float)))
              (SetScaleMultiplier None)
  = call_setter (built_wrapper 24 "hash" "mm.ckpt" None) (SetScaleMultiplier None).
Proof.
  apply (@later_call_overrides (built_wrapper 24 "hash" "mm.ckpt" None)
           (SetScaleMultiplier (Some 1.5%float)) (SetScaleMultiplier None)).
  - reflexivity.
  - discriminate.
Defined.

Lemma call_setter_frame (w : HotShotXLMotionWrapper) (c : setter_call) :
  version (call_setter w c) = version w
  /\ mm_hash (call_setter w c) = mm_hash w
  /\ mm_name (call_setter w c) = mm_name w
  /\ loras (call_setter w c) = loras w
  /\ injector_version (call_setter w c) = injector_version w
  /\ is_Some (mid_block (call_setter w c)) = is_Some (mid_block w)
  /\ module_sizes (down_blocks (call_setter w c)) = module_sizes (down_blocks w)
  /\ module_sizes (up_blocks (call_setter w c)) = module_sizes (up_blocks w).
Proof.
  rewrite call_setter_for_each. unfold for_each_block, module_sizes. simpl.
  repeat split.
  - destruct (mid_block w); reflexivity.
  - rewrite map_map. apply map_ext. intros m. simpl. apply length_map.
  - rewrite map_map. apply map_ext. intros m. simpl. apply length_map.
Qed.

(** X15: no sequence of setter calls changes the version, hash, name, LoRA
    list, injector version, the presence of a mid block or the number of
    [TransformerTemporal]s per module. *)
Theorem setters_keep_identity (w : HotShotXLMotionWrapper)
  (calls : list setter_call) :
  version (fold_left call_setter calls w) = version w
  /\ mm_hash (fold_left call_setter calls w) = mm_hash w
  /\ mm_name (fold_left call_setter calls w) = mm_name w
  /\ loras (fold_left call_setter calls w) = loras w
  /\ has_loras (fold_left call_setter calls w) = has_loras w
  /\ injector_version (fold_left call_setter calls w) = injector_version w
  /\ is_Some (mid_block (fold_left call_setter calls w)) = is_Some (mid_block w)
  /\ module_sizes (down_blocks (fold_left call_setter calls w))
     = module_sizes (down_blocks w)
  /\ module_sizes (up_blocks (fold_left call_setter calls w))
     = module_sizes (up_blocks w).
Proof.
  revert w. induction calls as [| c calls IH]; intros w.
  - repeat split.
  - simpl. destruct (IH (call_setter w c)) as (H1 & H2 & H3 & H4 & H5 & H6 & H7 & H8 & H9).
    destruct (call_setter_frame w c) as (F1 & F2 & F3 & F4 & F6 & F7 & F8 & F9).
    unfold has_loras in *.
    repeat split; congruence.
Qed.

(* ================================================================== *)
(** * Forward computation: failures *)

Lemma mbind_raise E A B (m : M E A) (k : A -> M E B) (log log' : list E) (e : exn) :
  m log = (log', Raise e) -> mbind m k log = (log', Raise e).
Proof. intros H. unfold mbind. rewrite H. reflexivity. Qed.

Lemma mbind_lift_raise E A B (e : exn) (k : A -> M E B) (log : list E) :
  mbind (lift (Raise e)) k log = (log, Raise e).
Proof. reflexivity. Qed.

Lemma broadcast_one (a : nat) : Torch.broadcast_rev [a] [1] = Ok [a].
Proof.
  simpl. destruct (Nat.eqb_spec a 1) as [-> | _]; reflexivity.
Qed.

Lemma add_positional_mismatch (a f ml c : nat) :
  f <> ml -> f <> 1 -> ml <> 1 ->
  Torch.add (mkTensor [a; f; c]) (mkTensor [1; ml; c]) = Raise RuntimeError.
Proof.
  intros Hfm Hf Hml. unfold Torch.add.
  change (rev (shape (mkTensor [a; f; c]))) with [c; f; a].
  change (rev (shape (mkTensor [1; ml; c]))) with [c; ml; 1].
  change (Torch.broadcast_rev [c; f; a] [c; ml; 1])
    with (rest <- (rest' <- Torch.broadcast_rev [a] [1] ;;
                   if (f =? ml)%nat then Ok (f :: rest')
                   else if (f =? 1)%nat then Ok (ml :: rest')
                   else if (ml =? 1)%nat then Ok (f :: rest')
                   else Raise RuntimeError) ;;
          if (c =? c)%nat then Ok (c :: rest)
          else if (c =? 1)%nat then Ok (c :: rest)
          else if (c =? 1)%nat then Ok (c :: rest)
          else Raise RuntimeError).
  rewrite broadcast_one. cbn [rbind].
  apply Nat.eqb_neq in Hfm, Hf, Hml. rewrite Hfm, Hf, Hml. reflexivity.
Qed.

Lemma add_positional_one (a f c : nat) :
  Torch.add (mkTensor [a; f; c]) (mkTensor [1; 1; c]) = Ok (mkTensor [a; f; c]).
Proof.
  unfold Torch.add.
  change (rev (shape (mkTensor [a; f; c]))) with [c; f; a].
  change (rev (shape (mkTensor [1; 1; c]))) with [c; 1; 1].
  change (Torch.broadcast_rev [c; f; a] [c; 1; 1])
    with (rest <- (rest' <- Torch.broadcast_rev [a] [1] ;;
                   if (f =? 1)%nat then Ok (f :: rest')
                   else if (f =? 1)%nat then Ok (1 :: rest')
                   else if (1 =? 1)%nat then Ok (f :: rest')
                   else Raise RuntimeError) ;;
          if (c =? c)%nat then Ok (c :: rest)
          else if (c =? 1)%nat then Ok (c :: rest)
          else if (c =? 1)%nat then Ok (c :: rest)
          else Raise RuntimeError).
  rewrite broadcast_one. cbn [rbind].
  destruct (f =? 1)%nat; cbn [Nat.eqb rbind]; rewrite Nat.eqb_refl; reflexivity.
Qed.

(** X20: for an input of at least two frames, [PositionalEncoding.forward]
    returns a tensor of the shape of its input when the length is at most
    the maximum length (or the table has one row), and raises otherwise. *)
Theorem positional_encoding_length_bound (dim max_length a f : nat) (p : float)
  (pe : PositionalEncoding) :
  PositionalEncoding_init dim p max_length = Ok pe ->
  2 <= f ->
  PositionalEncoding_forward pe (mkTensor [a; f; dim]) f
  = if (f <=? max_length)%nat || (max_length =? 1)%nat
    then Ok (mkTensor [a; f; dim])
    else Raise RuntimeError.
Proof.
  intros Hpe Hf. apply PositionalEncoding_init_inv in Hpe. subst pe.
  unfold PositionalEncoding_forward, Torch.slice_second.
  cbn [positional_encoding shape rbind].
  destruct (Nat.leb_spec f max_length) as [Hle | Hgt]; cbn [orb].
  - rewrite Nat.min_l by exact Hle. apply add_positional.
  - rewrite Nat.min_r by lia.
    destruct (Nat.eqb_spec max_length 1) as [-> | Hne].
    + apply add_positional_one.
    + apply add_positional_mismatch; lia.
Qed.

Lemma positional_encoding_length_bound_witness :
  PositionalEncoding_init 320 0%float 24
  = Ok (mkPositionalEncoding 0%float (mkTensor [1; 24; 320]))
  /\ PositionalEncoding_forward
       (mkPositionalEncoding 0%float (mkTensor [1; 24; 320]))
       (mkTensor [4096; 32; 320]) 32
     = Raise RuntimeError
  /\ PositionalEncoding_forward
       (mkPositionalEncoding 0%float (mkTensor [1; 24; 320]))
       (mkTensor [4096; 16; 320]) 16
     = Ok (mkTensor [4096; 16; 320]).
Proof.
  split; [reflexivity | split].
  - apply (@positional_encoding_length_bound 320 24 4096 32 0%float);
      [reflexivity | lia].
  - apply (@positional_encoding_length_bound 320 24 4096 16 0%float);
      [reflexivity | lia].
Defined.

Section ForwardFailures.

Variable tensor_bool : Tensor -> result bool.
Variable get_scale_mask : TemporalTransformerGeneric -> Tensor -> option Tensor.

Lemma attention_bad_batch (self : TemporalAttention) (n s c f : nat)
  (enc mask sm : option Tensor) (log : list forward_event) :
  0 < f -> n mod f <> 0 ->
  TemporalAttention_forward tensor_bool self (mkTensor [n; s; c]) enc mask f sm log
  = (log ++ [AttentionCalled enc], Raise EinopsError).
Proof.
  intros Hf Hn. unfold TemporalAttention_forward. run_log.
  unfold size; cbn [shape nth_error]. run_log.
  unfold Torch.rearrange_frames_in. cbn [shape].
  destruct (Nat.eqb_spec f 0) as [-> | _]; [lia |].
  destruct (Nat.eqb_spec (n mod f) 0) as [H0 | _]; [contradiction |].
  apply mbind_lift_raise.
Qed.

Lemma attention_long_video (self : TemporalAttention) (ml n s c f : nat)
  (enc mask sm : option Tensor) (log : list forward_event) :
  attention_fits c ml self ->
  0 < f -> n mod f = 0 -> 1 < ml -> ml < f ->
  TemporalAttention_forward tensor_bool self (mkTensor [n; s; c]) enc mask f sm log
  = (log ++ [AttentionCalled enc], Raise RuntimeError).
Proof.
  intros [Hq Hpe] Hf Hn Hml1 Hml. unfold TemporalAttention_forward. run_log.
  unfold size; cbn [shape nth_error]. run_log.
  rewrite rearrange_frames_in_ok by assumption. run_log.
  unfold PositionalEncoding_forward, Torch.slice_second. rewrite Hpe.
  cbn [shape rbind]. rewrite Nat.min_r by lia.
  rewrite add_positional_mismatch by lia.
  apply mbind_lift_raise.
Qed.

Lemma attention_truth_test (self : TemporalAttention) (ml n s c f : nat)
  (ctx : Tensor) (mask sm : option Tensor) (log : list forward_event) :
  attention_fits c ml self ->
  0 < f -> n mod f = 0 -> f <= ml ->
  tensor_bool ctx = Raise RuntimeError ->
  TemporalAttention_forward tensor_bool self (mkTensor [n; s; c]) (Some ctx)
    mask f sm log
  = (log ++ [AttentionCalled (Some ctx)], Raise RuntimeError).
Proof.
  intros [Hq Hpe] Hf Hn Hml Hbool. unfold TemporalAttention_forward. run_log.
  unfold size; cbn [shape nth_error]. run_log.
  rewrite rearrange_frames_in_ok by assumption. run_log.
  rewrite positional_encoding_ok with (ml := ml) by assumption. run_log.
  cbn [truth]. rewrite Hbool. apply mbind_lift_raise.
Qed.

(** A block fails where its first attention fails. *)
Lemma block_fails_with_first_attention (self : TransformerBlock)
  (a : TemporalAttention) (arest : list TemporalAttention)
  (ln : LayerNorm) (nrest : list LayerNorm) (n s c f : nat)
  (enc mask sm : option Tensor) (log log' : list forward_event) (e : exn) :
  attention_blocks self = a :: arest ->
  norms self = ln :: nrest ->
  normalized_shape ln = c ->
  TemporalAttention_forward tensor_bool a (mkTensor [n; s; c])
    (if negb (is_cross self) then None else enc) mask f sm log
  = (log', Raise e) ->
  TransformerBlock_forward tensor_bool self (mkTensor [n; s; c]) enc mask f sm log
  = (log', Raise e).
Proof.
  intros Hatt Hnorms Hln Hfail. unfold TransformerBlock_forward.
  rewrite Hatt, Hnorms. cbn [combine mfold].
  apply mbind_raise. apply mbind_raise.
  unfold attention_round. cbn [fst snd].
  unfold Torch.LayerNorm_forward. rewrite Hln, last_is_3. run_log.
  apply mbind_raise. exact Hfail.
Qed.

(** A [TransformerTemporal] fails where its first block fails. *)
Lemma tt_fails_with_first_block (self : TransformerTemporal)
  (b : TransformerBlock) (brest : list TransformerBlock)
  (c inner ml B H W : nat) (enc mask : option Tensor)
  (log log' : list forward_event) (e : exn) :
  tt_fits c inner ml self ->
  transformer_blocks self = b :: brest ->
  TransformerBlock_forward tensor_bool b (mkTensor [B; H * W; inner]) enc mask
    (video_length (temporal self))
    (get_scale_mask (temporal self) (mkTensor [B; c; H; W])) log
  = (log', Raise e) ->
  TransformerTemporal_forward tensor_bool get_scale_mask self
    (mkTensor [B; c; H; W]) enc mask log
  = (log', Raise e).
Proof.
  intros (Hnorm & Hin & Hout & Hblocks) Hb Hfail.
  unfold TransformerTemporal_forward. run_log.
  unfold Torch.unpack4. cbn [shape]. run_log.
  unfold GroupNormAD_forward. cbn [shape]. rewrite Hnorm, Nat.eqb_refl. run_log.
  unfold size. cbn [shape nth_error]. run_log.
  change (Torch.permute [0; 2; 3; 1] (mkTensor [B; c; H; W]))
    with (Ok (mkTensor [B; H; W; c])). run_log.
  unfold Torch.reshape at 1. cbn [shape Torch.numel fold_right].
  replace (B * (H * W * (c * 1)) =? B * (H * (W * (c * 1))))%nat with true
    by (symmetry; apply Nat.eqb_eq; lia).
  run_log.
  rewrite Hin. unfold Torch.Linear_forward at 1.
  cbn [shape rev app in_features out_features]. rewrite Nat.eqb_refl. run_log.
  rewrite Hb. cbn [mfold].
  apply mbind_raise. apply mbind_raise. exact Hfail.
Qed.

End ForwardFailures.

Lemma tt_setter_keeps_first_attention (t : TransformerTemporal) (c : setter_call) :
  has_first_attention t -> has_first_attention (call_tt_setter t c).
Proof.
  intros (b & brest & a & arest & ln & nrest & Hb & Ha & Hn).
  destruct c; try (exists b, brest, a, arest, ln, nrest; repeat split; assumption).
  exists (TransformerBlock_set_scale_multiplier multiplier b),
    (map (TransformerBlock_set_scale_multiplier multiplier) brest),
    (TemporalAttention_set_scale_multiplier multiplier a),
    (map (TemporalAttention_set_scale_multiplier multiplier) arest), ln, nrest.
  simpl. rewrite Hb, Ha. repeat split. exact Hn.
Qed.

Lemma tt_setters_keep_first_attention (calls : list setter_call)
  (t : TransformerTemporal) :
  has_first_attention t -> has_first_attention (fold_left call_tt_setter calls t).
Proof.
  revert t. induction calls as [| c calls IH]; intros t Ht; simpl.
  - exact Ht.
  - apply IH. apply tt_setter_keeps_first_attention. exact Ht.
Qed.

Lemma built_tt_first_attention (c ml : nat) : has_first_attention (built_tt c ml).
Proof. repeat eexists. Qed.

(** What fails in the first attention call fails the forward pass. *)
Lemma forward_fails_in_first_attention
  (tensor_bool : Tensor -> result bool)
  (get_scale_mask : TemporalTransformerGeneric -> Tensor -> option Tensor)
  (t : TransformerTemporal) (c inner ml B H W : nat) (enc mask : option Tensor)
  (e : exn) :
  tt_fits c inner ml t ->
  has_first_attention t ->
  (forall a sm, attention_fits inner ml a ->
     TemporalAttention_forward tensor_bool a (mkTensor [B; H * W; inner]) None
       mask (video_length (temporal t)) sm []
     = ([AttentionCalled None], Raise e)) ->
  TransformerTemporal_forward tensor_bool get_scale_mask t
    (mkTensor [B; c; H; W]) enc mask []
  = ([AttentionCalled None], Raise e).
Proof.
  intros Hfits (b & brest & a & arest & ln & nrest & Hb & Ha & Hn) Hfail.
  assert (Hblock : block_fits inner ml b).
  { destruct Hfits as (_ & _ & _ & Hblocks). rewrite Hb in Hblocks.
    apply Forall_inv in Hblocks. exact Hblocks. }
  destruct Hblock as (Hcross & Hatts & Hnorms & _ & _).
  rewrite Ha in Hatts. rewrite Hn in Hnorms.
  apply Forall_inv in Hatts. apply Forall_inv in Hnorms.
  rename Hatts into Hafit. rename Hnorms into Hln.
  apply tt_fails_with_first_block with (b := b) (brest := brest) (inner := inner)
    (ml := ml); [exact Hfits | exact Hb |].
  apply block_fails_with_first_attention with (a := a) (arest := arest)
    (ln := ln) (nrest := nrest); [exact Ha | exact Hn | exact Hln |].
  rewrite Hcross. cbn [negb]. apply Hfail. exact Hafit.
Qed.

(** X17: when the batch is no multiple of the (positive) video length, the
    forward pass raises in its first attention call, where it splits the
    batch into frames. *)
Theorem batch_must_split_into_frames
  (tensor_bool : Tensor -> result bool)
  (get_scale_mask : TemporalTransformerGeneric -> Tensor -> option Tensor)
  (c max_length : nat) (t : TransformerTemporal) (calls : list setter_call)
  (B H W : nat) (encoder_hidden_states attention_mask : option Tensor) :
  get_transformer_temporal c max_length = Ok t ->
  0 < video_length (temporal (fold_left call_tt_setter calls t)) ->
  B mod video_length (temporal (fold_left call_tt_setter calls t)) <> 0 ->
  outcome (TransformerTemporal_forward tensor_bool get_scale_mask
             (fold_left call_tt_setter calls t) (mkTensor [B; c; H; W])
             encoder_hidden_states attention_mask)
  = Raise EinopsError
  /\ events (TransformerTemporal_forward tensor_bool get_scale_mask
               (fold_left call_tt_setter calls t) (mkTensor [B; c; H; W])
               encoder_hidden_states attention_mask)
     = [AttentionCalled None].
Proof.
  intros Hbuilt Hf Hn.
  apply get_transformer_temporal_built in Hbuilt.
  destruct Hbuilt as (_ & _ & ->).
  assert (Hrun := @forward_fails_in_first_attention tensor_bool get_scale_mask
            _ c (8 * (c / 8)) max_length B H W encoder_hidden_states
            attention_mask EinopsError
            (tt_setters_keep_fit calls (built_tt_fits c max_length))
            (tt_setters_keep_first_attention calls
               (built_tt_first_attention c max_length))).
  unfold outcome, events. rewrite Hrun; [split; reflexivity |].
  intros a sm _. apply attention_bad_batch; assumption.
Qed.

Lemma batch_must_split_into_frames_witness :
  outcome (TransformerTemporal_forward no_tensor_bool no_scale_mask
             (fold_left call_tt_setter [SetVideoLength 16 16] (built_tt 320 24))
             (mkTensor [24; 320; 64; 64]) None None)
  = Raise EinopsError.
Proof.
  apply (@batch_must_split_into_frames no_tensor_bool no_scale_mask 320 24
           (built_tt 320 24) [SetVideoLength 16 16] 24 64 64 None None).
  - reflexivity.
  - simpl. lia.
  - simpl. discriminate.
Defined.

(** X18: when the video length exceeds a maximum length of at least 2, the
    forward pass raises where the positional encoding is added. *)
Theorem video_longer_than_max_length_raises
  (tensor_bool : Tensor -> result bool)
  (get_scale_mask : TemporalTransformerGeneric -> Tensor -> option Tensor)
  (c max_length : nat) (t : TransformerTemporal) (calls : list setter_call)
  (B H W : nat) (encoder_hidden_states attention_mask : option Tensor) :
  get_transformer_temporal c max_length = Ok t ->
  1 < max_length ->
  max_length < video_length (temporal (fold_left call_tt_setter calls t)) ->
  B mod video_length (temporal (fold_left call_tt_setter calls t)) = 0 ->
  outcome (TransformerTemporal_forward tensor_bool get_scale_mask
             (fold_left call_tt_setter calls t) (mkTensor [B; c; H; W])
             encoder_hidden_states attention_mask)
  = Raise RuntimeError.
Proof.
  intros Hbuilt Hml Hf Hn.
  apply get_transformer_temporal_built in Hbuilt.
  destruct Hbuilt as (_ & _ & ->).
  assert (Hrun := @forward_fails_in_first_attention tensor_bool get_scale_mask
            _ c (8 * (c / 8)) max_length B H W encoder_hidden_states
            attention_mask RuntimeError
            (tt_setters_keep_fit calls (built_tt_fits c max_length))
            (tt_setters_keep_first_attention calls
               (built_tt_first_attention c max_length))).
  unfold outcome. rewrite Hrun; [reflexivity |].
  intros a sm Hfit. apply attention_long_video with (ml := max_length);
    [exact Hfit | lia | exact Hn | exact Hml | exact Hf].
Qed.

Lemma video_longer_than_max_length_raises_witness :
  outcome (TransformerTemporal_forward no_tensor_bool no_scale_mask
             (fold_left call_tt_setter [SetVideoLength 32 32] (built_tt 320 24))
             (mkTensor [32; 320; 64; 64]) None None)
  = Raise RuntimeError.
Proof.
  apply (@video_longer_than_max_length_raises no_tensor_bool no_scale_mask 320 24
           (built_tt 320 24) [SetVideoLength 32 32] 32 64 64 None None).
  - reflexivity.
  - lia.
  - simpl. lia.
  - reflexivity.
Defined.

(** X19: a block built with a cross-attention dimension passes the context
    on, and the forward pass raises at [if encoder_hidden_states:] whenever
    the truth test of the context tensor raises. *)
Theorem cross_block_tests_context_truth
  (tensor_bool : Tensor -> result bool)
  (dim num_attention_heads attention_head_dim : nat) (dropout : float)
  (activation_fn : string) (attention_bias upcast_attention : bool)
  (depth cross_attention_dim max_length n s f : nat)
  (block : TransformerBlock) (ctx : Tensor)
  (attention_mask scale_mask : option Tensor) :
  TransformerBlock_init dim num_attention_heads attention_head_dim dropout
    activation_fn attention_bias upcast_attention depth
    (Some cross_attention_dim) max_length = Ok block ->
  0 < depth ->
  0 < f -> n mod f = 0 -> f <= max_length ->
  tensor_bool ctx = Raise RuntimeError ->
  TransformerBlock_forward tensor_bool block
    (mkTensor [n; s; dim]) (Some ctx) attention_mask f scale_mask []
  = ([AttentionCalled (Some ctx)], Raise RuntimeError).
Proof.
  intros Hblock Hdepth Hf Hn Hml Hbool.
  apply TransformerBlock_init_inv in Hblock. subst block.
  destruct depth as [| depth]; [lia |].
  eapply block_fails_with_first_attention with (c := dim);
    [reflexivity | reflexivity | reflexivity |].
  cbn [is_cross is_Some negb].
  apply attention_truth_test with (ml := max_length); try assumption.
  split; reflexivity.
Qed.

Lemma cross_block_tests_context_truth_witness :
  exists block,
    TransformerBlock_init 320 8 40 0%float "geglu" false false 2 (Some 768) 24
    = Ok block
    /\ TransformerBlock_forward no_tensor_bool block
         (mkTensor [16; 4096; 320]) (Some (mkTensor [2; 77; 768])) None 8 None []
       = ([AttentionCalled (Some (mkTensor [2; 77; 768]))], Raise RuntimeError).
Proof.
  eexists. split; [reflexivity |].
  apply (@cross_block_tests_context_truth no_tensor_bool 320 8 40 0%float "geglu"
           false false 2 768 24 16 4096 8).
  - reflexivity.
  - lia.
  - lia.
  - reflexivity.
  - lia.
  - reflexivity.
Defined.

(** The constructor without a cross-attention dimension gives layers that
    fit together, for any numbers of heads, layers and groups. *)
Lemma init_fits (num_attention_heads attention_head_dim in_channels num_layers : nat)
  (dropout : float) (norm_num_groups : nat) (attention_bias : bool)
  (activation_fn : string) (upcast_attention : bool) (max_length : nat)
  (t : TransformerTemporal) :
  TransformerTemporal_init num_attention_heads attention_head_dim in_channels
    num_layers dropout norm_num_groups None attention_bias activation_fn
    upcast_attention max_length = Ok t ->
  tt_fits in_channels (num_attention_heads * attention_head_dim) max_length t
  /\ video_length (temporal t) = 8
  /\ List.length (transformer_blocks t) = num_layers.
Proof.
  unfold TransformerTemporal_init, GroupNormAD_init.
  destruct (norm_num_groups =? 0)%nat; cbn [rbind]; [discriminate |].
  destruct (in_channels mod norm_num_groups =? 0)%nat; cbn [rbind];
    [| discriminate].
  destruct (rrepeat _ num_layers) as [blocks | e] eqn:Hblocks; cbn [rbind];
    [| discriminate].
  intros H. injection H as <-. cbn [temporal transformer_blocks].
  apply rrepeat_inv in Hblocks. destruct Hblocks as [Hlen Hall].
  split; [| split; [reflexivity | exact Hlen]].
  repeat split. cbn [transformer_blocks].
  apply Forall_forall. intros b Hb.
  rewrite Forall_forall in Hall. apply Hall in Hb.
  apply TransformerBlock_init_inv in Hb. subst b.
  repeat split; simpl; repeat constructor.
Qed.

(** X16: a freshly built [TransformerTemporal] without cross-attention, of
    any number of heads and layers, maps an input of shape
    [(B, in_channels, H, W)] to an output of that shape at its default video
    length 8, when 8 divides [B], the maximum length is at least 8 and
    [H * W] is positive. *)
Theorem forward_preserves_shape_any_layers
  (tensor_bool : Tensor -> result bool)
  (get_scale_mask : TemporalTransformerGeneric -> Tensor -> option Tensor)
  (num_attention_heads attention_head_dim in_channels num_layers : nat)
  (dropout : float) (norm_num_groups : nat) (attention_bias : bool)
  (activation_fn : string) (upcast_attention : bool) (max_length : nat)
  (t : TransformerTemporal) (B H W : nat)
  (encoder_hidden_states attention_mask : option Tensor) :
  TransformerTemporal_init num_attention_heads attention_head_dim in_channels
    num_layers dropout norm_num_groups None attention_bias activation_fn
    upcast_attention max_length = Ok t ->
  B mod 8 = 0 -> 8 <= max_length -> 0 < H * W ->
  outcome (TransformerTemporal_forward tensor_bool get_scale_mask t
             (mkTensor [B; in_channels; H; W])
             encoder_hidden_states attention_mask)
  = Ok (mkTensor [B; in_channels; H; W]).
Proof.
  intros Hinit HB Hml Hs.
  apply init_fits in Hinit. destruct Hinit as (Hfits & Hlen & _).
  destruct (@tt_keeps_shape tensor_bool get_scale_mask t in_channels
              (num_attention_heads * attention_head_dim) max_length B H W
              encoder_hidden_states attention_mask Hfits) with (log := @nil forward_event)
    as [evs Hevs]; rewrite ?Hlen; try assumption; try lia.
  unfold outcome. rewrite Hevs. reflexivity.
Qed.

Lemma forward_preserves_shape_any_layers_witness :
  exists t,
    TransformerTemporal_init 4 12 64 3 0%float 4 None false "gelu" false 16
    = Ok t
    /\ outcome (TransformerTemporal_forward no_tensor_bool no_scale_mask t
                  (mkTensor [16; 64; 8; 8]) None None)
       = Ok (mkTensor [16; 64; 8; 8]).
Proof.
  eexists. split; [reflexivity |].
  apply (@forward_preserves_shape_any_layers no_tensor_bool no_scale_mask
           4 12 64 3 0%float 4 false "gelu" false 16).
  - reflexivity.
  - reflexivity.
  - lia.
  - simpl. lia.
Defined.
